(** * crawler: the grouping and shark-resolution pipeline

    A shallow embedding of [src/sharks.py] ([_normalize_shark_name],
    [build_sharks]) and of the grouping loop of [src/main.py] /
    [src/scrap.py] ([main]), with the properties of the specification
    stated and settled against them.

    Python strings are sequences of Unicode code points; they are modelled as
    lists of code points ([N]).  Python dictionaries keep insertion order and
    are modelled as association lists with unique keys. *)

From Stdlib Require Import List Bool Arith NArith ZArith Lia Ascii String.
From Stdlib Require Import Permutation Sorted Floats.
Import ListNotations.

Set Implicit Arguments.

(** ** Python strings *)

Module PyStr.

Definition codepoint := N.
Definition pystr := list codepoint.

(** An ASCII literal of the source as a Python string. *)
Definition py (s : string) : pystr := map N_of_ascii (list_ascii_of_string s).

Definition cp_eqb (a b : codepoint) : bool := N.eqb a b.

Fixpoint eqb (s t : pystr) : bool :=
  match s, t with
  | [], [] => true
  | a :: s', b :: t' => cp_eqb a b && eqb s' t'
  | _, _ => false
  end.

(** [s < t] and [s <= t] of Python: lexicographic on code points. *)
Fixpoint ltb (s t : pystr) : bool :=
  match s, t with
  | [], [] => false
  | [], _ :: _ => true
  | _ :: _, [] => false
  | a :: s', b :: t' => N.ltb a b || (N.eqb a b && ltb s' t')
  end.

Definition leb (s t : pystr) : bool := negb (ltb t s).

(** [not s]: the empty string is the only falsy string. *)
Definition is_empty (s : pystr) : bool :=
  match s with [] => true | _ => false end.

Definition is_ascii (c : codepoint) : bool := N.ltb c 128.

(** [str.isspace] on one code point, the set used by [str.strip] and by
    [\s] in [re] (CPython's [_PyUnicode_IsWhitespace]). *)
Definition is_space (c : codepoint) : bool :=
  (N.leb 9 c && N.leb c 13) || (N.leb 28 c && N.leb c 32)
  || N.eqb c 133 || N.eqb c 160 || N.eqb c 5760
  || (N.leb 8192 c && N.leb c 8202)
  || N.eqb c 8232 || N.eqb c 8233 || N.eqb c 8239 || N.eqb c 8287
  || N.eqb c 12288.

Fixpoint lstrip (s : pystr) : pystr :=
  match s with
  | [] => []
  | c :: r => if is_space c then lstrip r else s
  end.

Definition rstrip (s : pystr) : pystr := rev (lstrip (rev s)).

(** [s.strip()] *)
Definition strip (s : pystr) : pystr := rstrip (lstrip s).

Definition is_upper_az (c : codepoint) : bool := N.leb 65 c && N.leb c 90.
Definition is_lower_az (c : codepoint) : bool := N.leb 97 c && N.leb c 122.
Definition is_digit (c : codepoint) : bool := N.leb 48 c && N.leb c 57.

Definition ascii_lower (c : codepoint) : codepoint :=
  if is_upper_az c then (c + 32)%N else c.
Definition ascii_upper (c : codepoint) : codepoint :=
  if is_lower_az c then (c - 32)%N else c.

(** [s.split(" ")]: split at every single space; never returns [[]]. *)
Fixpoint split_sp (s : pystr) : list pystr :=
  match s with
  | [] => [[]]
  | c :: r =>
      if N.eqb c 32 then [] :: split_sp r
      else match split_sp r with
           | [] => [[c]]
           | t :: ts => (c :: t) :: ts
           end
  end.

(** [" ".join(ts)] *)
Fixpoint join_sp (ts : list pystr) : pystr :=
  match ts with
  | [] => []
  | [t] => t
  | t :: ts' => t ++ 32%N :: join_sp ts'
  end.

(** [re.sub("[cls]", "", s)]: every code point of the class is deleted. *)
Definition re_delete (cls : codepoint -> bool) (s : pystr) : pystr :=
  filter (fun c => negb (cls c)) s.

(** [re.sub("[cls]+", " ", s)]: every maximal run of code points of the class
    is replaced by one space.  [in_run] tells that the previous code point
    belonged to the run being replaced. *)
Fixpoint re_sub_runs_aux (cls : codepoint -> bool) (in_run : bool) (s : pystr)
  : pystr :=
  match s with
  | [] => []
  | c :: r =>
      if cls c then
        if in_run then re_sub_runs_aux cls true r
        else 32%N :: re_sub_runs_aux cls true r
      else c :: re_sub_runs_aux cls false r
  end.

Definition re_sub_runs (cls : codepoint -> bool) (s : pystr) : pystr :=
  re_sub_runs_aux cls false s.

End PyStr.
Import PyStr.

(** ** Python values

    What [json.loads] returns and what the scrapers put in their records. *)

#[local] Unset Elimination Schemes.
Inductive pyval :=
| PNone
| PBool (b : bool)
| PInt (z : Z)
| PFloat (f : float)
| PStr (s : pystr)
| PList (l : list pyval)
| PDict (d : list (pystr * pyval)).
#[local] Set Elimination Schemes.

(** A Python [dict] with string keys, in insertion order. *)
Definition pydict := list (pystr * pyval).

(** [bool(v)] *)
Definition truthy (v : pyval) : bool :=
  match v with
  | PNone => false
  | PBool b => b
  | PInt z => negb (Z.eqb z 0)
  | PFloat f => negb (PrimFloat.eqb f 0%float)
  | PStr s => negb (is_empty s)
  | PList l => match l with [] => false | _ => true end
  | PDict d => match d with [] => false | _ => true end
  end.

(** ** The part of the Python runtime that the repository does not define

    [str.lower] and [str.upper] on text with non-ASCII code points follow the
    Unicode tables, and [str(x)] of a value that is not a string follows the
    built-in conversions.  They are taken as parameters; on ASCII text the
    case mappings are the usual ones and are written out. *)

Class PyRuntime := {
  (** [s.lower()] for a string with at least one non-ASCII code point
      (the mapping is context sensitive: final sigma). *)
  unicode_lower : pystr -> pystr;
  (** the full upper-case mapping of one non-ASCII code point other than
      the four below ([str.upper] is context free). *)
  unicode_upper_cp : codepoint -> pystr;
  (** [str(v)] for a value that is not a string. *)
  builtin_str : pyval -> pystr
}.

Section Case.
Context {RT : PyRuntime}.

(** [s.lower()] *)
Definition lower (s : pystr) : pystr :=
  if forallb is_ascii s then map ascii_lower s else unicode_lower s.

(** The upper-case mapping of one code point.  The four non-ASCII letters
    that [re.IGNORECASE] folds onto ASCII letters are written out:
    U+0130 and U+212A are upper case already, U+0131 maps to [I] and
    U+017F to [S]. *)
Definition upper_cp (c : codepoint) : pystr :=
  if is_ascii c then [ascii_upper c]
  else if N.eqb c 304 then [304%N]
  else if N.eqb c 305 then [73%N]
  else if N.eqb c 383 then [83%N]
  else if N.eqb c 8490 then [8490%N]
  else unicode_upper_cp c.

(** [s.upper()] *)
Definition upper (s : pystr) : pystr := flat_map upper_cp s.

End Case.

(** ** sharks.py: name canonicalization *)

Definition _SUFFIX_STOPWORDS : list pystr :=
  map py
    [ "inc"; "incorporated"; "corp"; "corporation"; "co"; "company"; "ltd";
      "ltda"; "plc"; "llc"; "lp"; "l.p"; "sa"; "s/a"; "holding";
      "holdings" ]%string.

(** [t in _SUFFIX_STOPWORDS] *)
Definition is_stopword (t : pystr) : bool :=
  existsb (PyStr.eqb t) _SUFFIX_STOPWORDS.

(** The class of the first substitution: double quote, quote, backtick and
    the two code points U+00C2 and U+00B4 that the source file spells. *)
Definition is_quote_like (c : codepoint) : bool :=
  N.eqb c 34 || N.eqb c 39 || N.eqb c 96 || N.eqb c 194 || N.eqb c 180.

(** [[a-z0-9]] and [[^a-z0-9]] *)
Definition is_az09 (c : codepoint) : bool := is_lower_az c || is_digit c.
Definition not_az09 (c : codepoint) : bool := negb (is_az09 c).

(** A code point of a string made of tokens and single spaces. *)
Definition key_char (c : codepoint) : Prop := c = 32%N \/ is_az09 c = true.

(** A token of a canonical key: not empty, lower-case letters and digits. *)
Definition token_ok (t : pystr) : Prop :=
  t <> [] /\ Forall (fun c => is_az09 c = true) t.

Section Normalize.
Context {RT : PyRuntime}.

(** Lines 27-49.  [hd [] tokens] is [tokens[0]]: where it is reached the
    list has an element, so the default is never returned. *)
Definition _normalize_shark_name (name : pystr) : pystr :=
  let s := lower (strip name) in
  if is_empty s then []
  else
    let s := re_delete is_quote_like s in
    let s := re_sub_runs not_az09 s in
    let s := strip (re_sub_runs is_space s) in
    if is_empty s then []
    else
      let tokens := filter (fun t => negb (is_empty t)) (split_sp s) in
      let filtered := filter (fun t => negb (is_stopword t)) tokens in
      match filtered with
      | [] => hd [] tokens
      | _ => join_sp filtered
      end.

(** The tokens [_normalize_shark_name] splits a non-empty name into. *)
Definition tokens_of (name : pystr) : list pystr :=
  filter (fun t => negb (is_empty t))
    (split_sp
       (strip
          (re_sub_runs is_space
             (re_sub_runs not_az09
                (re_delete is_quote_like (lower (strip name))))))).

End Normalize.

(** A runtime whose non-ASCII tables are the identity; it is only used to
    evaluate examples, where it is never consulted on text it would get
    wrong. *)
Definition ascii_runtime : PyRuntime :=
  {| unicode_lower := fun s => s;
     unicode_upper_cp := fun c => [c];
     builtin_str := fun _ => py "?" |}.

(** ** Dictionaries, sets and sorting *)

Section Dict.
Variables (K V : Type) (keq : K -> K -> bool).

(** [d.get(k)] *)
Fixpoint dict_get (d : list (K * V)) (k : K) : option V :=
  match d with
  | [] => None
  | (k', v) :: r => if keq k k' then Some v else dict_get r k
  end.

(** [d[k] = v]: a present key keeps its place, a new key goes last. *)
Fixpoint dict_set (d : list (K * V)) (k : K) (v : V) : list (K * V) :=
  match d with
  | [] => [(k, v)]
  | (k', v') :: r =>
      if keq k k' then (k', v) :: r else (k', v') :: dict_set r k v
  end.

Definition dict_keys (d : list (K * V)) : list K := map fst d.

End Dict.

(** [s.add(x)] on a set kept as a list without repetition.  The order in
    which Python iterates a set is not specified; the source only passes
    its sets to [sorted], whose result does not depend on it. *)
Definition set_add (s : list pystr) (x : pystr) : list pystr :=
  if existsb (PyStr.eqb x) s then s else s ++ [x].

Section Sort.
Variables (A : Type) (lt : A -> A -> bool).

(** [sorted] is stable and only asks [<] of the keys: [x] goes before the
    first element that is not smaller than it. *)
Fixpoint insert_sorted (x : A) (l : list A) : list A :=
  match l with
  | [] => [x]
  | y :: r => if lt y x then y :: insert_sorted x r else x :: l
  end.

Fixpoint sorted (l : list A) : list A :=
  match l with
  | [] => []
  | x :: r => insert_sorted x (sorted r)
  end.

(** [x] is not after [y] in the order [sorted] produces. *)
Definition notafter (x y : A) : Prop := lt y x = false.

End Sort.

(** [<] on the tuples [(int, str)] that the source sorts by. *)
Definition key_ltb (a b : Z * pystr) : bool :=
  Z.ltb (fst a) (fst b) || (Z.eqb (fst a) (fst b) && PyStr.ltb (snd a) (snd b)).

(** [<] on tuples [(str, str)]. *)
Definition pair_ltb (a b : pystr * pystr) : bool :=
  PyStr.ltb (fst a) (fst b)
  || (PyStr.eqb (fst a) (fst b) && PyStr.ltb (snd a) (snd b)).

Definition pair_eqb (a b : pystr * pystr) : bool :=
  PyStr.eqb (fst a) (fst b) && PyStr.eqb (snd a) (snd b).

(** ** sharks.py: build_sharks *)

(** A file of the output directory: its name and what
    [json.loads(p.read_text(...))] gives, [None] when either raises. *)
Record file := { name : pystr; loaded : option pyval }.

Inductive exn := AttributeError.

Inductive result (A : Type) :=
| Ok (a : A)
| Raise (e : exn).
Arguments Ok {A} a.
Arguments Raise {A} e.

Record shark := {
  shark_name : pystr;
  quantity : Z;
  items : list pystr
}.

(** The two dictionaries of [build_sharks]. *)
Record maps := {
  accionistas_map : list (pystr * list pystr);
  display_name_counts : list (pystr * list (pystr * Z))
}.

Definition acionistas_suffix : pystr := py ".acionistas.json".

Fixpoint starts_with (pre s : pystr) : bool :=
  match pre, s with
  | [], _ => true
  | a :: pre', b :: s' => N.eqb a b && starts_with pre' s'
  | _ :: _, [] => false
  end.

(** Whether [glob("*.acionistas.json")] yields a file of that name: the
    name ends with the suffix (matching is case sensitive, as on POSIX). *)
Definition glob_match (n : pystr) : bool :=
  starts_with (rev acionistas_suffix) (rev n).

(** [[a-z0-9]] under [re.IGNORECASE]: the ASCII letters and digits and the
    four letters U+0130, U+0131, U+017F, U+212A. *)
Definition az09_ignorecase (c : codepoint) : bool :=
  is_lower_az c || is_upper_az c || is_digit c
  || N.eqb c 304 || N.eqb c 305 || N.eqb c 383 || N.eqb c 8490.

(** One literal of the pattern, a lower-case letter or a dot, under
    [re.IGNORECASE]. *)
Definition literal_ignorecase (p c : codepoint) : bool :=
  N.eqb c p
  || (is_lower_az p
      && (N.eqb c (p - 32)
          || (N.eqb p 105 && (N.eqb c 304 || N.eqb c 305))
          || (N.eqb p 115 && N.eqb c 383)
          || (N.eqb p 107 && N.eqb c 8490))).

Fixpoint literals_ignorecase (pat s : pystr) : option pystr :=
  match pat, s with
  | [], _ => Some s
  | p :: pat', c :: s' =>
      if literal_ignorecase p c then literals_ignorecase pat' s' else None
  | _ :: _, [] => None
  end.

Fixpoint span (cls : codepoint -> bool) (s : pystr) : pystr * pystr :=
  match s with
  | [] => ([], [])
  | c :: r =>
      if cls c then let (a, b) := span cls r in (c :: a, b) else ([], s)
  end.

(** [re.match(r"^([a-z0-9]+)\.acionistas\.json$", n, re.IGNORECASE)] and
    [m.group(1)]: the dot is outside the class, so the group is the longest
    prefix in the class; [$] also matches before a final newline. *)
Definition match_ticker_name (n : pystr) : option pystr :=
  let (stem, rest) := span az09_ignorecase n in
  if is_empty stem then None
  else
    match literals_ignorecase acionistas_suffix rest with
    | Some [] => Some stem
    | Some [c] => if N.eqb c 10 then Some stem else None
    | _ => None
    end.

Section Sharks.
Context {RT : PyRuntime}.

(** [str(v)] *)
Definition py_str (v : pyval) : pystr :=
  match v with
  | PStr s => s
  | _ => builtin_str v
  end.

(** [str(d.get(k) or dflt)] *)
Definition str_get_or (d : pydict) (k : string) (dflt : string) : pystr :=
  match dict_get PyStr.eqb d (py k) with
  | Some v => if truthy v then py_str v else py dflt
  | None => py dflt
  end.

(** Lines 62-66: the ticker of an artifact. *)
Definition artifact_ticker (n : pystr) (payload : pydict) : pystr :=
  let ticker := upper (strip (str_get_or payload "ticker" "")) in
  if is_empty ticker then
    match match_ticker_name n with
    | Some g => upper (strip g)
    | None => ticker
    end
  else ticker.

(** Lines 73-81: the raw name and the key of a row, [None] where the loop
    goes on to the next row. *)
Definition item_row (item : pyval) : option (pystr * pystr) :=
  match item with
  | PDict d =>
      let name_raw := strip (str_get_or d "acionista" "") in
      if is_empty name_raw then None
      else
        let key := _normalize_shark_name name_raw in
        if is_empty key then None else Some (name_raw, key)
  | _ => None
  end.

Definition opt_default {A : Type} (d : A) (o : option A) : A :=
  match o with Some a => a | None => d end.

(** Lines 83-85. *)
Definition record_row (ticker : pystr) (st : maps) (row : pystr * pystr)
  : maps :=
  let (name_raw, key) := row in
  let tickers := opt_default [] (dict_get PyStr.eqb (accionistas_map st) key) in
  let amap := dict_set PyStr.eqb (accionistas_map st) key (set_add tickers ticker) in
  let counts := opt_default [] (dict_get PyStr.eqb (display_name_counts st) key) in
  let n := opt_default 0%Z (dict_get PyStr.eqb counts name_raw) in
  let counts := dict_set PyStr.eqb counts name_raw (n + 1)%Z in
  {| accionistas_map := amap;
     display_name_counts := dict_set PyStr.eqb (display_name_counts st) key counts |}.

Definition scan_item (ticker : pystr) (st : maps) (item : pyval) : maps :=
  match item_row item with
  | Some row => record_row ticker st row
  | None => st
  end.

(** The body of the loop over the files, lines 57-85. *)
Definition scan_file (st : maps) (p : file) : result maps :=
  match loaded p with
  | None => Ok st
  | Some (PDict payload) =>
      let ticker := artifact_ticker (name p) payload in
      match dict_get PyStr.eqb payload (py "items") with
      | Some (PList l) =>
          if is_empty ticker then Ok st
          else Ok (fold_left (scan_item ticker) l st)
      | _ => Ok st
      end
  | Some _ => Raise AttributeError
  end.

Fixpoint scan_files (st : maps) (ps : list file) : result maps :=
  match ps with
  | [] => Ok st
  | p :: r =>
      match scan_file st p with
      | Ok st' => scan_files st' r
      | Raise e => Raise e
      end
  end.

(** Lines 88-103: one shark for an entry of [accionistas_map]. *)
Definition make_shark (counts : list (pystr * list (pystr * Z)))
  (entry : pystr * list pystr) : shark :=
  let (shark_key, tickers) := entry in
  let its := sorted PyStr.ltb tickers in
  let name_counts := opt_default [] (dict_get PyStr.eqb counts shark_key) in
  let by_count :=
    sorted (fun x y => key_ltb (- snd x, fst x)%Z (- snd y, fst y)%Z)
      name_counts in
  let nm :=
    match by_count with
    | x :: _ => fst x
    | [] => shark_key
    end in
  {| shark_name := nm; quantity := Z.of_nat (List.length its); items := its |}.

(** The key of the final sort, line 105. *)
Definition shark_sort_key (x : shark) : Z * pystr :=
  (- (if Z.eqb (quantity x) 0 then 0 else quantity x), shark_name x)%Z.

Definition empty_maps : maps :=
  {| accionistas_map := []; display_name_counts := [] |}.

(** [sorted(out_dir.glob("*.acionistas.json"))]: paths of one directory
    compare by their names. *)
Definition shareholder_files (out_dir : list file) : list file :=
  sorted (fun p q => PyStr.ltb (name p) (name q))
    (filter (fun p => glob_match (name p)) out_dir).

Definition build_sharks (out_dir : list file) : result (list shark) :=
  match scan_files empty_maps (shareholder_files out_dir) with
  | Ok st =>
      Ok (sorted (fun x y => key_ltb (shark_sort_key x) (shark_sort_key y))
            (map (make_shark (display_name_counts st)) (accionistas_map st)))
  | Raise e => Raise e
  end.

End Sharks.

(** ** main.py / scrap.py: the grouping loop of [main] *)

Record outputs := {
  (** the per-ticker files written, in the order of the writes:
      file name and payload *)
  written : list (pystr * pyval);
  volume_map : list (pystr * pyval);
  magic_formula_map : list (pystr * pyval)
}.

(** What a wide map stores for the records of one ticker. *)
Definition wide_payload (ticker_items : list pydict) : pyval :=
  match ticker_items with
  | [x] => PDict x
  | _ => PDict [(py "items", PList (map PDict ticker_items))]
  end.

(** The payload of a per-ticker file. *)
Definition ticker_payload (generated_at ticker source : pystr)
  (ticker_items : list pydict) : pyval :=
  PDict [ (py "generated_at", PStr generated_at);
          (py "ticker", PStr ticker);
          (py "source", PStr source);
          (py "items", PList (map PDict ticker_items)) ].

Section Grouper.
Context {RT : PyRuntime}.

(** [str(item.get("ticker") or "").strip().upper() or "UNKNOWN"] *)
Definition norm_ticker (item : pydict) : pystr :=
  let t := upper (strip (str_get_or item "ticker" "")) in
  if is_empty t then py "UNKNOWN" else t.

(** [str(item.get("source") or "data").strip().lower() or "data"] *)
Definition norm_source (item : pydict) : pystr :=
  let s := lower (strip (str_get_or item "source" "data")) in
  if is_empty s then py "data" else s.

Definition item_key (item : pydict) : pystr * pystr :=
  (norm_ticker item, norm_source item).

(** [by_key.setdefault((ticker, source), []).append(item)] *)
Definition add_item (by_key : list ((pystr * pystr) * list pydict))
  (item : pydict) : list ((pystr * pystr) * list pydict) :=
  let k := item_key item in
  dict_set pair_eqb by_key k
    (opt_default [] (dict_get pair_eqb by_key k) ++ [item]).

Definition group_by_key (items : list pydict)
  : list ((pystr * pystr) * list pydict) :=
  fold_left add_item items [].

(** [sorted(by_key.items())]: the keys are distinct, so the comparison of
    two entries is decided by their keys. *)
Definition sorted_buckets (items : list pydict)
  : list ((pystr * pystr) * list pydict) :=
  sorted (fun a b => pair_ltb (fst a) (fst b)) (group_by_key items).

(** The name of a per-ticker file; [ext] is ["json"] in main.py and
    ["json"] or ["md"] in scrap.py. *)
Definition file_name (ext ticker source : pystr) : pystr :=
  lower ticker ++ py "." ++ source ++ py "." ++ ext.

(** The body of the loop over the sorted buckets. *)
Definition emit (ext generated_at : pystr) (out : outputs)
  (b : (pystr * pystr) * list pydict) : outputs :=
  let '((ticker, source), ticker_items) := b in
  if PyStr.eqb source (py "volume") then
    {| written := written out;
       volume_map :=
         dict_set PyStr.eqb (volume_map out) ticker (wide_payload ticker_items);
       magic_formula_map := magic_formula_map out |}
  else if PyStr.eqb source (py "magic_formula") then
    {| written := written out;
       volume_map := volume_map out;
       magic_formula_map :=
         dict_set PyStr.eqb (magic_formula_map out) ticker
           (wide_payload ticker_items) |}
  else
    {| written :=
         written out
         ++ [(file_name ext ticker source,
              ticker_payload generated_at ticker source ticker_items)];
       volume_map := volume_map out;
       magic_formula_map := magic_formula_map out |}.

Definition no_outputs : outputs :=
  {| written := []; volume_map := []; magic_formula_map := [] |}.

Definition group (ext generated_at : pystr) (items : list pydict) : outputs :=
  fold_left (emit ext generated_at) (sorted_buckets items) no_outputs.

(** The file of a wide map, written when the map is not empty. *)
Definition wide_file (ext generated_at source : pystr)
  (m : list (pystr * pyval)) : list (pystr * pyval) :=
  match m with
  | [] => []
  | _ => [(source ++ py "." ++ ext,
           PDict [ (py "generated_at", PStr generated_at);
                   (py "source", PStr source);
                   (py "items", PDict m) ])]
  end.

(** All the files [main] writes from the collected items, in order. *)
Definition main_writes (ext generated_at : pystr) (items : list pydict)
  : list (pystr * pyval) :=
  let out := group ext generated_at items in
  written out
  ++ wide_file ext generated_at (py "volume") (volume_map out)
  ++ wide_file ext generated_at (py "magic_formula") (magic_formula_map out).

(** The three kinds of bucket, as the loop tells them apart. *)
Definition bucket := ((pystr * pystr) * list pydict)%type.

Definition is_volume (b : bucket) : bool :=
  PyStr.eqb (snd (fst b)) (py "volume").

Definition is_magic_formula (b : bucket) : bool :=
  negb (is_volume b) && PyStr.eqb (snd (fst b)) (py "magic_formula").

Definition is_ordinary (b : bucket) : bool :=
  negb (is_volume b) && negb (is_magic_formula b).

(** What the loop writes for an ordinary bucket, and what it stores in a
    wide map for a bucket of a wide source. *)
Definition written_of (ext generated_at : pystr) (b : bucket)
  : pystr * pyval :=
  (file_name ext (fst (fst b)) (snd (fst b)),
   ticker_payload generated_at (fst (fst b)) (snd (fst b)) (snd b)).

Definition wide_of (b : bucket) : pystr * pyval :=
  (fst (fst b), wide_payload (snd b)).

(** The records of key [k] among [l], in the order of [l]. *)
Definition with_key (k : pystr * pystr) (l : list pydict) : list pydict :=
  filter (fun r => pair_eqb (item_key r) k) l.

(** What [by_key] holds once the records [seen] are appended. *)
Record by_key_ok (seen : list pydict) (d : list bucket) : Prop := {
  bk_keys : NoDup (dict_keys d);
  bk_get : forall k, dict_get pair_eqb d k
                     = match with_key k seen with
                       | [] => None
                       | l => Some l
                       end;
  bk_perm : Permutation (flat_map snd d) seen
}.

End Grouper.

(** ** The rows a resolution run sees

    These definitions name what the properties of [build_sharks] speak
    about: the rows that reach the update of the two dictionaries. *)

Section Rows.
Context {RT : PyRuntime}.

(** A row: the ticker of its artifact, its raw name and its key. *)
Definition row := (pystr * (pystr * pystr))%type.

Definition row_ticker (r : row) : pystr := fst r.
Definition row_name (r : row) : pystr := fst (snd r).
Definition row_key (r : row) : pystr := snd (snd r).

Fixpoint item_rows (l : list pyval) : list (pystr * pystr) :=
  match l with
  | [] => []
  | item :: r =>
      match item_row item with
      | Some x => x :: item_rows r
      | None => item_rows r
      end
  end.

(** The rows of one file; none when the file is passed over. *)
Definition file_rows (p : file) : list row :=
  match loaded p with
  | Some (PDict payload) =>
      let ticker := artifact_ticker (name p) payload in
      match dict_get PyStr.eqb payload (py "items") with
      | Some (PList l) =>
          if is_empty ticker then [] else map (pair ticker) (item_rows l)
      | _ => []
      end
  | _ => []
  end.

Definition seen_rows (out_dir : list file) : list row :=
  flat_map file_rows (shareholder_files out_dir).

(** The tickers under which key [k] appears. *)
Definition appears_in (rows : list row) (k t : pystr) : Prop :=
  exists n, In (t, (n, k)) rows.

(** How many rows spell key [k] as [n]. *)
Definition occurrences (rows : list row) (k n : pystr) : nat :=
  List.length
    (filter (fun r => PyStr.eqb (row_key r) k && PyStr.eqb (row_name r) n) rows).

(** What the specification asks of the shark of key [k]. *)
Definition shark_for (rows : list row) (k : pystr) (s : shark) : Prop :=
  StronglySorted (fun a b => PyStr.ltb a b = true) (items s)
  /\ (forall t, In t (items s) <-> appears_in rows k t)
  /\ quantity s = Z.of_nat (List.length (items s))
  /\ 0 < occurrences rows k (shark_name s)
  /\ (forall n, 0 < occurrences rows k n ->
        occurrences rows k n < occurrences rows k (shark_name s)
        \/ (occurrences rows k n = occurrences rows k (shark_name s)
            /\ PyStr.leb (shark_name s) n = true)).

(** A file that the loop passes over: it cannot be read or parsed, or it is
    an object with no usable ticker or whose items are not a list. *)
Definition passed_over (p : file) : bool :=
  match loaded p with
  | None => true
  | Some (PDict payload) =>
      match dict_get PyStr.eqb payload (py "items") with
      | Some (PList _) => is_empty (artifact_ticker (name p) payload)
      | _ => true
      end
  | Some _ => false
  end.

(** The update of the dictionaries by one row. *)
Definition record_step (st : maps) (r : row) : maps :=
  record_row (row_ticker r) st (snd r).

(** [display_name_counts.get(k) or {}] *)
Definition counts_of (st : maps) (k : pystr) : list (pystr * Z) :=
  opt_default [] (dict_get PyStr.eqb (display_name_counts st) k).

(** What the two dictionaries hold once the rows [rows] are recorded. *)
Record maps_ok (rows : list row) (st : maps) : Prop := {
  ok_keys : NoDup (dict_keys (accionistas_map st));
  ok_tickers :
    forall k ts, dict_get PyStr.eqb (accionistas_map st) k = Some ts ->
      NoDup ts /\ (exists t, In t ts)
      /\ (forall t, In t ts <-> appears_in rows k t);
  ok_absent :
    forall k, dict_get PyStr.eqb (accionistas_map st) k = None ->
      forall t, ~ appears_in rows k t;
  ok_counts :
    forall k, NoDup (dict_keys (counts_of st k))
      /\ (forall n, dict_get PyStr.eqb (counts_of st k) n
                    = if Nat.eqb (occurrences rows k n) 0 then None
                      else Some (Z.of_nat (occurrences rows k n)))
}.

End Rows.

(** The order the final list is in. *)
Definition shark_before (a b : shark) : Prop :=
  (quantity a > quantity b)%Z
  \/ (quantity a = quantity b
      /\ PyStr.leb (shark_name a) (shark_name b) = true).

(** ** main.py / scrap.py: _get_tickers *)

(** The loop "if v not in seen: seen.add(v); result.append(v)" on the
    pair of the set [seen] and the list. *)
Definition push_new (st : list pystr * list pystr) (v : pystr)
  : list pystr * list pystr :=
  if existsb (PyStr.eqb v) (fst st) then st
  else (set_add (fst st) v, snd st ++ [v]).

(** The first occurrence of each string of a list, in order. *)
Fixpoint first_occurrences (l : list pystr) : list pystr :=
  match l with
  | [] => []
  | x :: r =>
      x :: filter (fun y => negb (PyStr.eqb y x)) (first_occurrences r)
  end.

(** "y not in seen" *)
Definition unseen (seen : list pystr) (y : pystr) : bool :=
  negb (existsb (PyStr.eqb y) seen).

Section Tickers.
Context {RT : PyRuntime}.

(** [str(t or "").strip().upper()] *)
Definition ticker_of (t : pyval) : pystr :=
  upper (strip (if truthy t then py_str t else [])).

(** The body of the loop of [_get_tickers]. *)
Definition tickers_step (st : list pystr * list pystr) (t : pyval)
  : list pystr * list pystr :=
  let v := ticker_of t in
  if is_empty v then st else push_new st v.

(** [site_cfg.get("tickers")], and [config.get("tickers", [])] when that is
    [None]. *)
Definition configured_tickers (config site_cfg : pydict) : pyval :=
  match dict_get PyStr.eqb site_cfg (py "tickers") with
  | Some PNone | None =>
      opt_default (PList []) (dict_get PyStr.eqb config (py "tickers"))
  | Some v => v
  end.

(** main.py lines 14-29, scrap.py lines 16-31.  The values of the
    configuration are those [pyval] has. *)
Definition _get_tickers (config site_cfg : pydict) : list pystr :=
  match configured_tickers config site_cfg with
  | PList tickers => snd (fold_left tickers_step tickers ([], []))
  | _ => []
  end.

End Tickers.

(** ** scrap.py: the Markdown tables *)

(** [s.replace(old, new)] for a non-empty [old]: the occurrences of [old]
    are taken from the left and do not overlap.  [skip] counts the code
    points of an occurrence that are still to be passed. *)
Fixpoint str_replace_aux (old new : pystr) (skip : nat) (s : pystr) : pystr :=
  match s with
  | [] => []
  | c :: r =>
      match skip with
      | S k => str_replace_aux old new k r
      | O =>
          if starts_with old s
          then new ++ str_replace_aux old new (List.length old - 1) r
          else c :: str_replace_aux old new 0 r
      end
  end.

Definition str_replace (old new s : pystr) : pystr :=
  str_replace_aux old new 0 s.

(** [sep.join(l)] *)
Fixpoint str_join (sep : pystr) (l : list pystr) : pystr :=
  match l with
  | [] => []
  | [t] => t
  | t :: r => t ++ sep ++ str_join sep r
  end.

(** Line feed, carriage return, pipe and backslash. *)
Definition LF : codepoint := 10%N.
Definition CR : codepoint := 13%N.
Definition PIPE : codepoint := 124%N.
Definition BACKSLASH : codepoint := 92%N.

Definition is_dict (v : pyval) : bool :=
  match v with PDict _ => true | _ => false end.

(** The columns of a table: the keys of the rows that are dictionaries, each
    at its first occurrence (scrap.py lines 46-55). *)
Definition table_columns (rows : list pyval) : list pystr :=
  snd (fold_left
         (fun st r =>
            match r with
            | PDict d => fold_left push_new (dict_keys d) st
            | _ => st
            end)
         rows ([], [])).

Section Markdown.
Context {RT : PyRuntime}.

(** scrap.py lines 34-39. *)
Definition _md_escape (value : pyval) : pystr :=
  let s := match value with PNone => [] | _ => py_str value end in
  let s := str_replace [CR] [LF] (str_replace [CR; LF] [LF] s) in
  let s := str_replace [PIPE] [BACKSLASH; PIPE] s in
  str_replace [LF] (py "<br>") s.

(** One line of a table: the cells between pipes, and a line feed. *)
Definition table_line (cells : list pystr) : pystr :=
  py "| " ++ str_join (py " | ") cells ++ py " |" ++ [LF].

Definition no_data : pystr := py "(sem dados)" ++ [LF].

(** scrap.py lines 42-67. *)
Definition _md_table (rows : list pyval) : pystr :=
  match rows with
  | [] => no_data
  | _ =>
      let cols := table_columns rows in
      match cols with
      | [] => no_data
      | _ =>
          let header := table_line (map (fun c => _md_escape (PStr c)) cols) in
          let sep := table_line (repeat (py "---") (List.length cols)) in
          let body_lines :=
            flat_map
              (fun r =>
                 match r with
                 | PDict d =>
                     [table_line
                        (map (fun c =>
                                _md_escape
                                  (opt_default PNone (dict_get PyStr.eqb d c)))
                           cols)]
                 | _ => []
                 end)
              rows in
          header ++ sep ++ List.concat body_lines
      end
  end.

(** scrap.py lines 70-72. *)
Definition _md_kv_table (item : pydict) : pystr :=
  _md_table
    (map (fun k =>
            PDict [ (py "campo", PStr k);
                    (py "valor", opt_default PNone (dict_get PyStr.eqb item k)) ])
       (dict_keys item)).

End Markdown.

(** ** scrap.py: _to_markdown *)

Section ToMarkdown.
Context {RT : PyRuntime}.

(** One section of the rendering of a wide map, scrap.py lines 93-100;
    [v] is [items.get(k)]. *)
Definition md_section (k : pystr) (v : pyval) : pystr :=
  py "## " ++ k ++ [LF; LF]
  ++ match v with
     | PDict d => _md_kv_table d ++ [LF]
     | PList l => _md_table (filter is_dict l) ++ [LF]
     | _ => _md_escape v ++ [LF; LF]
     end.

(** The title and the line of the timestamp, scrap.py lines 76-84. *)
Definition md_heading (payload : pydict) : pystr :=
  let ticker := strip (str_get_or payload "ticker" "") in
  let source := strip (str_get_or payload "source" "") in
  let generated_at := strip (str_get_or payload "generated_at" "") in
  let title :=
    py "# "
    ++ (if negb (is_empty ticker) then ticker ++ py " (" ++ source ++ py ")"
        else if negb (is_empty source) then source else py "data") in
  let md := title ++ [LF; LF] in
  if negb (is_empty generated_at)
  then md ++ py "generated_at: " ++ generated_at ++ [LF; LF]
  else md.

(** scrap.py lines 75-105; the payload is a dictionary at every call. *)
Definition _to_markdown (payload : pydict) : pystr :=
  let md := md_heading payload in
  match dict_get PyStr.eqb payload (py "items") with
  | Some (PList l) => md ++ _md_table (filter is_dict l)
  | Some (PDict m) =>
      md
      ++ flat_map
           (fun k => md_section k (opt_default PNone (dict_get PyStr.eqb m k)))
           (sorted PyStr.ltb (dict_keys m))
  | _ => md ++ _md_kv_table payload
  end.

End ToMarkdown.

(** ** scrapers/bestchoice_magic_formula.py: the items made of the response *)

(** [{**d, **extra}]: the entries of [extra] are set one after the other. *)
Definition dict_update (d extra : pydict) : pydict :=
  fold_left (fun acc kv => dict_set PyStr.eqb acc (fst kv) (snd kv)) extra d.

(** The three entries written before [**row]. *)
Definition magic_fixed (ticker : pystr) : pydict :=
  [ (py "site", PStr (py "bestchoice"));
    (py "source", PStr (py "magic_formula"));
    (py "ticker", PStr ticker) ].

Section MagicFormula.
Context {RT : PyRuntime}.

(** Lines 36-43: the dictionary appended for a row. *)
Definition magic_item (row : pydict) (ticker : pystr) : pydict :=
  dict_update (magic_fixed ticker) row.

(** Lines 24-45 of [scrape], from [data = resp.json()] on; the request
    itself is not modelled. *)
Definition magic_formula_items (data : pyval) : list pydict :=
  match data with
  | PList rows =>
      flat_map
        (fun row =>
           match row with
           | PDict d =>
               let ticker := upper (strip (str_get_or d "simbolo" "")) in
               if is_empty ticker then [] else [magic_item d ticker]
           | _ => []
           end)
        rows
  | _ => []
  end.

End MagicFormula.

(** Every pipe of [l] comes right after a backslash; [prev] is the code
    point before [l]. *)
Fixpoint pipes_escaped (prev : codepoint) (l : pystr) : Prop :=
  match l with
  | [] => True
  | c :: r => (c = PIPE -> prev = BACKSLASH) /\ pipes_escaped c r
  end.

(** The keys a row brings to the columns of a table. *)
Definition row_keys (r : pyval) : list pystr :=
  match r with PDict d => dict_keys d | _ => [] end.

(** The number of line feeds of a text. *)
Definition count_lf (s : pystr) : nat := count_occ N.eq_dec s LF.

(** The strict form of the final order. *)
Definition shark_strictly_before (a b : shark) : Prop :=
  (quantity a > quantity b)%Z
  \/ (quantity a = quantity b
      /\ PyStr.ltb (shark_name a) (shark_name b) = true).

(** The (ticker, source) a per-ticker payload carries. *)
Definition payload_key (v : pyval) : pystr * pystr :=
  match v with
  | PDict d =>
      (match dict_get PyStr.eqb d (py "ticker") with
       | Some (PStr t) => t
       | _ => []
       end,
       match dict_get PyStr.eqb d (py "source") with
       | Some (PStr s) => s
       | _ => []
       end)
  | _ => ([], [])
  end.

(** ** Fixtures

    The inputs of the specification's examples. *)

Module Fixtures.

(** A row of a shareholder list. *)
Definition acionista (n : string) : pyval :=
  PDict [(py "acionista", PStr (py n))].

(** A shareholder artifact as main writes it. *)
Definition shareholder_file (fname ticker : string) (names : list string)
  : file :=
  {| name := py fname;
     loaded :=
       Some (PDict [ (py "generated_at", PStr (py "2024-01-01T00:00:00+00:00"));
                     (py "ticker", PStr (py ticker));
                     (py "source", PStr (py "acionistas"));
                     (py "items", PList (map acionista names)) ]) |}.

(** The four rows of the ordering example: "ACME Corp" and "ACME" under
    ticker A, "ACME CORP" under B, "Beta Ltd" under C. *)
Definition acme_files : list file :=
  [ shareholder_file "a.acionistas.json" "A" ["ACME Corp"; "ACME"];
    shareholder_file "b.acionistas.json" "B" ["ACME CORP"];
    shareholder_file "c.acionistas.json" "C" ["Beta Ltd"] ]%string.

Definition mk_shark (n : string) (q : Z) (ts : list string) : shark :=
  {| shark_name := py n; quantity := q; items := map py ts |}.

(** The sharks the code resolves from [acme_files]. *)
Definition acme_shark : shark := mk_shark "ACME" 2 ["A"; "B"]%string.
Definition beta_shark : shark := mk_shark "Beta Ltd" 1 ["C"]%string.

(** A file that parses to something that is not an object. *)
Definition null_file : file :=
  {| name := py "bad-file.acionistas.json"; loaded := Some PNone |}.

(** An artifact without a ticker field, named with the long s (U+017F). *)
Definition long_s_file : file :=
  {| name := 383%N :: py ".acionistas.json";
     loaded := Some (PDict [(py "items", PList [acionista "Gamma"])]) |}.

(** An artifact without a ticker field whose name has a hyphen. *)
Definition hyphen_file : file :=
  {| name := py "petr-4.acionistas.json";
     loaded := Some (PDict [(py "items", PList [acionista "Gamma"])]) |}.

(** A scraped record. *)
Definition scraped (ticker source : string) (n : Z) : pydict :=
  [ (py "site", PStr (py "fixture"));
    (py "source", PStr (py source));
    (py "ticker", PStr (py ticker));
    (py "n", PInt n) ].

Definition stamp : pystr := py "2024-01-01T00:00:00+00:00".

Definition mixed_records : list pydict :=
  [ scraped "PETR4" "volume" 1; scraped "PETR4" "insiders" 2;
    scraped "VALE3" "volume" 3; scraped "petr4" "Volume" 4;
    scraped "VALE3" "magic_formula" 5; scraped "PETR4" "insiders" 6;
    [(py "n", PInt 7)] ]%string.

End Fixtures.

(** More inputs. *)
Module MoreFixtures.
Import Fixtures.

(** [acme_files] with the two rows of ticker A in the other order. *)
Definition acme_files_swapped : list file :=
  [ shareholder_file "a.acionistas.json" "A" ["ACME"; "ACME Corp"];
    shareholder_file "b.acionistas.json" "B" ["ACME CORP"];
    shareholder_file "c.acionistas.json" "C" ["Beta Ltd"] ]%string.

(** A file that cannot be parsed. *)
Definition broken_file : file :=
  {| name := py "x.acionistas.json"; loaded := None |}.

(** A shareholder record as the scraper hands it to the loop. *)
Definition gamma_record : pydict :=
  [ (py "ticker", PStr (py "petr4")); (py "acionista", PStr (py "Gamma")) ].

(** Rows of the magic-formula response: the second has a source of its
    own. *)
Definition magic_row : pydict :=
  [ (py "simbolo", PStr (py " petr4")); (py "rank", PInt 1) ].

Definition magic_row_sourced : pydict :=
  [ (py "simbolo", PStr (py "vale3")); (py "source", PStr (py "x")) ].

End MoreFixtures.

(** ** Facts about strings *)

Module PyStrFacts.

Lemma eqb_eq (s t : pystr) : PyStr.eqb s t = true <-> s = t.
Proof.
  revert t; induction s as [|a s IH]; intros [|b t]; simpl;
    try (split; (discriminate || reflexivity)).
  unfold cp_eqb. rewrite andb_true_iff, N.eqb_eq, IH.
  split; [intros [-> ->]; reflexivity | intros H; inversion H; auto].
Qed.

Lemma eqb_refl (s : pystr) : PyStr.eqb s s = true.
Proof. apply eqb_eq; reflexivity. Qed.

Lemma eqb_neq (s t : pystr) : PyStr.eqb s t = false <-> s <> t.
Proof.
  rewrite <- eqb_eq. destruct (PyStr.eqb s t); split; congruence.
Qed.

Lemma eqb_sym (s t : pystr) : PyStr.eqb s t = PyStr.eqb t s.
Proof.
  destruct (PyStr.eqb s t) eqn:E.
  - apply eqb_eq in E; subst; symmetry; apply eqb_refl.
  - destruct (PyStr.eqb t s) eqn:E'; auto.
    apply eqb_eq in E'; subst. rewrite eqb_refl in E; discriminate.
Qed.

Lemma ltb_irrefl (s : pystr) : PyStr.ltb s s = false.
Proof.
  induction s as [|a s IH]; simpl; auto.
  rewrite N.ltb_irrefl, N.eqb_refl, IH; reflexivity.
Qed.

Lemma ltb_trans (s t u : pystr) :
  PyStr.ltb s t = true -> PyStr.ltb t u = true -> PyStr.ltb s u = true.
Proof.
  revert t u; induction s as [|a s IH]; intros [|b t] [|c u]; simpl;
    try discriminate; auto.
  rewrite !orb_true_iff, !andb_true_iff, !N.ltb_lt, !N.eqb_eq.
  intros [H1|[H1 H1']] [H2|[H2 H2']]; subst; auto.
  - left; lia.
  - right; split; auto. eapply IH; eauto.
Qed.

Lemma ltb_asym (s t : pystr) :
  PyStr.ltb s t = true -> PyStr.ltb t s = false.
Proof.
  intros H. destruct (PyStr.ltb t s) eqn:E; auto.
  pose proof (ltb_trans _ _ _ H E) as C. rewrite ltb_irrefl in C; discriminate.
Qed.

Lemma ltb_total (s t : pystr) :
  PyStr.ltb s t = false -> PyStr.ltb t s = false -> s = t.
Proof.
  revert t; induction s as [|a s IH]; intros [|b t]; simpl;
    try discriminate; auto.
  rewrite !orb_false_iff, !andb_false_iff, !N.ltb_ge, !N.eqb_neq.
  intros [H1 H1'] [H2 H2'].
  assert (a = b) by lia; subst.
  f_equal; apply IH.
  - destruct H1'; congruence.
  - destruct H2'; congruence.
Qed.

Lemma leb_trans (s t u : pystr) :
  PyStr.ltb t s = false -> PyStr.ltb u t = false -> PyStr.ltb u s = false.
Proof.
  intros H1 H2. destruct (PyStr.ltb u s) eqn:E; auto.
  destruct (PyStr.ltb s t) eqn:E1.
  - rewrite (ltb_trans _ _ _ E E1) in H2; discriminate.
  - rewrite (ltb_total _ _ E1 H1) in E; congruence.
Qed.

End PyStrFacts.
Import PyStrFacts.

(** ** Facts about sorting *)

Section SortFacts.
Variables (A : Type) (lt : A -> A -> bool).

Lemma insert_sorted_perm (x : A) (l : list A) :
  Permutation (insert_sorted lt x l) (x :: l).
Proof.
  induction l as [|y r IH]; simpl; auto.
  destruct (lt y x); auto.
  rewrite IH. apply perm_swap.
Qed.

Lemma sorted_perm (l : list A) : Permutation (sorted lt l) l.
Proof.
  induction l as [|x r IH]; simpl; auto.
  rewrite insert_sorted_perm. auto.
Qed.

Lemma sorted_In (l : list A) (x : A) : In x (sorted lt l) <-> In x l.
Proof.
  split; apply Permutation_in; [|symmetry]; apply sorted_perm.
Qed.

Lemma sorted_length (l : list A) : List.length (sorted lt l) = List.length l.
Proof. apply Permutation_length, sorted_perm. Qed.

Hypothesis lt_asym : forall x y, lt x y = true -> lt y x = false.
Hypothesis le_trans :
  forall x y z, lt y x = false -> lt z y = false -> lt z x = false.

Lemma insert_sorted_ok (x : A) (l : list A) :
  StronglySorted (notafter lt) l -> StronglySorted (notafter lt) (insert_sorted lt x l).
Proof.
  induction 1 as [|y r Hr IH Hy]; simpl.
  - constructor; constructor.
  - destruct (lt y x) eqn:E.
    + constructor; auto.
      rewrite Forall_forall in *. intros z Hz.
      apply (Permutation_in _ (insert_sorted_perm x r)) in Hz.
      destruct Hz as [<-|Hz]; [apply lt_asym; exact E | auto].
    + constructor; [constructor; auto|].
      constructor; [exact E|].
      rewrite Forall_forall in *. intros z Hz.
      unfold notafter. eapply le_trans; [exact E | apply Hy, Hz].
Qed.

Lemma sorted_ok (l : list A) : StronglySorted (notafter lt) (sorted lt l).
Proof.
  induction l as [|x r IH]; simpl; [constructor | apply insert_sorted_ok, IH].
Qed.

Lemma sorted_head_least (l r : list A) (x : A) :
  sorted lt l = x :: r -> forall y, In y l -> lt y x = false.
Proof.
  intros E y Hy. pose proof (sorted_ok l) as S. rewrite E in S.
  apply sorted_In in Hy. rewrite E in Hy.
  inversion S as [|? ? _ F]; subst.
  destruct Hy as [<-|Hy].
  - destruct (lt x x) eqn:Exx; auto. rewrite (lt_asym Exx) in Exx; discriminate.
  - rewrite Forall_forall in F. apply F, Hy.
Qed.

(** Removing elements before or after sorting gives the same list. *)
Lemma filter_insert_sorted (f : A -> bool) (x : A) (l : list A) :
  StronglySorted (notafter lt) l ->
  filter f (insert_sorted lt x l)
  = if f x then insert_sorted lt x (filter f l) else filter f l.
Proof.
  induction 1 as [|y r Hr IH Hy]; simpl.
  - destruct (f x); reflexivity.
  - destruct (lt y x) eqn:E; simpl.
    + rewrite IH. destruct (f y), (f x); simpl; try rewrite E; reflexivity.
    + destruct (f x) eqn:Fx; [|reflexivity].
      f_equal.
      assert (G : forall z, In z (filter f (y :: r)) -> lt z x = false).
      { intros z Hz. apply filter_In in Hz. destruct Hz as [[<-|Hz] _]; auto.
        rewrite Forall_forall in Hy. eapply le_trans; [exact E | apply Hy, Hz]. }
      destruct (filter f (y :: r)) as [|z q] eqn:Eq; simpl in *.
      * destruct (f y); [discriminate|]. rewrite Eq. reflexivity.
      * destruct (f y); rewrite Eq; simpl; rewrite (G z (or_introl eq_refl));
          reflexivity.
Qed.

Lemma filter_sorted (f : A -> bool) (l : list A) :
  filter f (sorted lt l) = sorted lt (filter f l).
Proof.
  induction l as [|x r IH]; simpl; auto.
  rewrite filter_insert_sorted by apply sorted_ok.
  rewrite IH. destruct (f x); reflexivity.
Qed.

End SortFacts.

(** The orders the source sorts by. *)

Lemma key_ltb_asym (a b : Z * pystr) :
  key_ltb a b = true -> key_ltb b a = false.
Proof.
  destruct a as [x s], b as [y t]; unfold key_ltb; simpl.
  rewrite orb_true_iff, andb_true_iff, orb_false_iff, andb_false_iff.
  rewrite !Z.ltb_lt, !Z.ltb_ge, Z.eqb_eq, Z.eqb_neq.
  intros [H|[H H']]; split; try lia.
  right; apply ltb_asym, H'.
Qed.

Lemma key_leb_trans (a b c : Z * pystr) :
  key_ltb b a = false -> key_ltb c b = false -> key_ltb c a = false.
Proof.
  destruct a as [x s], b as [y t], c as [z u]; unfold key_ltb; simpl.
  rewrite !orb_false_iff, !andb_false_iff, !Z.ltb_ge, !Z.eqb_neq.
  intros [H1 H1'] [H2 H2']. split; [lia|].
  destruct (Z.eq_dec z x) as [->|Hn]; [right | left; exact Hn].
  assert (y = x) by lia; subst.
  destruct H1' as [|H1']; [congruence|]. destruct H2' as [|H2']; [congruence|].
  eapply leb_trans; eauto.
Qed.

Lemma StronglySorted_adjacent (A : Type) (R : A -> A -> Prop) (l : list A) :
  StronglySorted R l ->
  forall i a b, nth_error l i = Some a -> nth_error l (S i) = Some b -> R a b.
Proof.
  induction 1 as [|x r Hr IH Hx]; intros i a b Ha Hb.
  - destruct i; discriminate.
  - destruct i as [|i]; simpl in *.
    + inversion Ha; subst. rewrite Forall_forall in Hx.
      apply Hx. destruct r; simpl in Hb; [discriminate|].
      inversion Hb; subst; left; reflexivity.
    + eapply IH; eauto.
Qed.

Lemma StronglySorted_impl (A : Type) (R S : A -> A -> Prop) (l : list A) :
  (forall a b, R a b -> S a b) -> StronglySorted R l -> StronglySorted S l.
Proof.
  intros HRS; induction 1 as [|x r Hr IH Hx]; constructor; auto.
  eapply Forall_impl; [|exact Hx]. intros b; apply HRS.
Qed.

(** ** The final order of the sharks *)

Lemma sort_key_notafter (a b : shark) :
  key_ltb (shark_sort_key b) (shark_sort_key a) = false -> shark_before a b.
Proof.
  unfold shark_sort_key, key_ltb, shark_before, PyStr.leb; simpl.
  rewrite orb_false_iff, andb_false_iff, Z.ltb_ge, Z.eqb_neq.
  destruct (Z.eqb_spec (quantity a) 0) as [Ea|Ea];
    destruct (Z.eqb_spec (quantity b) 0) as [Eb|Eb];
    intros [H1 [H2|H2]]; try rewrite H2; simpl; try lia;
    destruct (Z.eq_dec (quantity a) (quantity b)); try lia; intuition lia.
Qed.

Lemma build_sharks_sorted {RT : PyRuntime} (out_dir : list file)
  (sharks : list shark) :
  build_sharks out_dir = Ok sharks ->
  StronglySorted shark_before sharks.
Proof.
  unfold build_sharks.
  destruct (scan_files empty_maps (shareholder_files out_dir)) as [st|e];
    [|discriminate].
  intros H; inversion H; subst; clear H.
  eapply StronglySorted_impl;
    [| apply sorted_ok;
       [ intros x y; apply key_ltb_asym
       | intros x y z; apply key_leb_trans ] ].
  intros a b Hab. apply sort_key_notafter, Hab.
Qed.

(** C5: in the list [build_sharks] returns, two adjacent sharks are in
    the order "quantity descending, then shark_name ascending": the first
    has the greater quantity, or the quantities are equal and its name is
    not greater than the second's. *)
Theorem build_sharks_adjacent_order {RT : PyRuntime} (out_dir : list file)
  (sharks : list shark) (i : nat) (s1 s2 : shark) :
  build_sharks out_dir = Ok sharks ->
  nth_error sharks i = Some s1 ->
  nth_error sharks (S i) = Some s2 ->
  (quantity s1 > quantity s2)%Z
  \/ (quantity s1 = quantity s2
      /\ PyStr.leb (shark_name s1) (shark_name s2) = true).
Proof.
  intros H H1 H2.
  exact (StronglySorted_adjacent (build_sharks_sorted _ H) _ H1 H2).
Qed.

(** ** Facts about dictionaries and sets *)

Section DictFacts.
Variables (K V : Type) (keq : K -> K -> bool).
Hypothesis keq_eq : forall a b, keq a b = true <-> a = b.

Lemma keq_refl (a : K) : keq a a = true.
Proof. apply keq_eq; reflexivity. Qed.

Lemma dict_get_set (d : list (K * V)) (k k' : K) (v : V) :
  dict_get keq (dict_set keq d k v) k'
  = if keq k' k then Some v else dict_get keq d k'.
Proof.
  induction d as [|[k0 v0] r IH]; simpl.
  - reflexivity.
  - destruct (keq k k0) eqn:E; simpl.
    + apply keq_eq in E; subst k0.
      destruct (keq k' k); reflexivity.
    + rewrite IH. destruct (keq k' k0) eqn:E'; auto.
      destruct (keq k' k) eqn:E''; auto.
      apply keq_eq in E', E''; subst. rewrite keq_refl in E; discriminate.
Qed.

Lemma dict_get_None (d : list (K * V)) (k : K) :
  dict_get keq d k = None <-> ~ In k (dict_keys d).
Proof.
  induction d as [|[k0 v0] r IH]; simpl; [tauto|].
  destruct (keq k k0) eqn:E.
  - apply keq_eq in E; subst. split; [discriminate | intros H; exfalso; auto].
  - rewrite IH. split; [intros H [H'|H']; auto | tauto].
    subst; rewrite keq_refl in E; discriminate.
Qed.

Lemma dict_get_In (d : list (K * V)) (k : K) (v : V) :
  dict_get keq d k = Some v -> In (k, v) d.
Proof.
  induction d as [|[k0 v0] r IH]; simpl; [discriminate|].
  destruct (keq k k0) eqn:E; auto.
  apply keq_eq in E; subst. intros H; inversion H; auto.
Qed.

Lemma In_dict_get (d : list (K * V)) (k : K) (v : V) :
  NoDup (dict_keys d) -> In (k, v) d -> dict_get keq d k = Some v.
Proof.
  induction d as [|[k0 v0] r IH]; simpl; [tauto|].
  intros N [H|H]; inversion N; subst.
  - inversion H; subst. rewrite keq_refl; reflexivity.
  - destruct (keq k k0) eqn:E; auto.
    apply keq_eq in E; subst. exfalso. apply H2.
    change k0 with (fst (k0, v)). apply in_map, H.
Qed.

Lemma dict_set_fresh (d : list (K * V)) (k : K) (v : V) :
  ~ In k (dict_keys d) -> dict_set keq d k v = d ++ [(k, v)].
Proof.
  induction d as [|[k0 v0] r IH]; simpl; auto.
  intros H. destruct (keq k k0) eqn:E.
  - apply keq_eq in E; subst; tauto.
  - rewrite IH; auto.
Qed.

Lemma dict_keys_set (d : list (K * V)) (k : K) (v : V) (x : K) :
  In x (dict_keys (dict_set keq d k v)) <-> In x (dict_keys d) \/ x = k.
Proof.
  induction d as [|[k0 v0] r IH]; simpl.
  - intuition.
  - destruct (keq k k0) eqn:E; simpl.
    + apply keq_eq in E; subst. intuition.
    + rewrite IH. tauto.
Qed.

Lemma NoDup_dict_set (d : list (K * V)) (k : K) (v : V) :
  NoDup (dict_keys d) -> NoDup (dict_keys (dict_set keq d k v)).
Proof.
  induction d as [|[k0 v0] r IH]; simpl; intros N.
  - constructor; auto.
  - inversion N; subst. destruct (keq k k0) eqn:E; simpl.
    + constructor; auto.
    + constructor; auto. rewrite dict_keys_set. intros [H|H]; auto.
      subst; rewrite keq_refl in E; discriminate.
Qed.

End DictFacts.

Lemma set_add_In (s : list pystr) (x t : pystr) :
  In t (set_add s x) <-> In t s \/ t = x.
Proof.
  unfold set_add. destruct (existsb (PyStr.eqb x) s) eqn:E.
  - split; auto. intros [H|H]; auto. subst.
    apply existsb_exists in E. destruct E as [y [Hy E]].
    apply eqb_eq in E; subst; auto.
  - rewrite in_app_iff; simpl. intuition.
Qed.

Lemma set_add_NoDup (s : list pystr) (x : pystr) :
  NoDup s -> NoDup (set_add s x).
Proof.
  unfold set_add. destruct (existsb (PyStr.eqb x) s) eqn:E; auto.
  intros N. apply NoDup_app; auto.
  - constructor; [intros []|constructor].
  - intros a Ha [Hx|[]]. subst a.
    assert (existsb (PyStr.eqb x) s = true); [|congruence].
    apply existsb_exists. exists x; split; auto. apply eqb_refl.
Qed.

(** ** The scan of the files records the rows *)

Section ScanFacts.
Context {RT : PyRuntime}.

Lemma scan_items_rows (ticker : pystr) (l : list pyval) (st : maps) :
  fold_left (scan_item ticker) l st
  = fold_left record_step (map (pair ticker) (item_rows l)) st.
Proof.
  revert st; induction l as [|item r IH]; intros st; simpl; auto.
  unfold scan_item at 2. destruct (item_row item) as [x|]; simpl; auto.
Qed.

Lemma scan_file_rows (st st' : maps) (p : file) :
  scan_file st p = Ok st' -> st' = fold_left record_step (file_rows p) st.
Proof.
  unfold scan_file, file_rows.
  destruct (loaded p) as [[| | | | | |payload]|]; try discriminate;
    try (intros H; inversion H; reflexivity).
  destruct (dict_get PyStr.eqb payload (py "items")) as [[| | | | |l|]|];
    try (intros H; inversion H; reflexivity).
  destruct (is_empty (artifact_ticker (name p) payload));
    intros H; inversion H; auto using scan_items_rows.
Qed.

Lemma scan_files_rows (ps : list file) (st st' : maps) :
  scan_files st ps = Ok st' ->
  st' = fold_left record_step (flat_map file_rows ps) st.
Proof.
  revert st; induction ps as [|p r IH]; intros st; simpl.
  - intros H; inversion H; reflexivity.
  - destruct (scan_file st p) as [st1|e] eqn:E; [|discriminate].
    intros H. rewrite fold_left_app.
    rewrite <- (scan_file_rows _ _ E). apply IH, H.
Qed.

Lemma occurrences_app (rows : list row) (r : row) (k n : pystr) :
  occurrences (rows ++ [r]) k n
  = occurrences rows k n
    + (if PyStr.eqb (row_key r) k && PyStr.eqb (row_name r) n then 1 else 0).
Proof.
  unfold occurrences. rewrite filter_app, length_app. simpl.
  destruct (PyStr.eqb (row_key r) k && PyStr.eqb (row_name r) n); reflexivity.
Qed.

Lemma appears_in_app (rows : list row) (r : row) (k t : pystr) :
  appears_in (rows ++ [r]) k t
  <-> appears_in rows k t \/ (row_key r = k /\ row_ticker r = t).
Proof.
  unfold appears_in. split.
  - intros [n H]. apply in_app_or in H. destruct H as [H|[H|[]]].
    + left; exists n; exact H.
    + right; subst r; auto.
  - intros [[n H]|[H1 H2]].
    + exists n; apply in_or_app; auto.
    + exists (row_name r). apply in_or_app; right; left.
      destruct r as [t' [n' k']]; unfold row_key, row_ticker, row_name in *;
        simpl in *; subst; reflexivity.
Qed.

Lemma maps_ok_empty : maps_ok [] empty_maps.
Proof.
  constructor; simpl.
  - constructor.
  - discriminate.
  - intros k _ t [n []].
  - intros k; split; [constructor | reflexivity].
Qed.

Lemma maps_ok_step (rows : list row) (st : maps) (r : row) :
  maps_ok rows st -> maps_ok (rows ++ [r]) (record_step st r).
Proof.
  intros [Hk Ht Ha Hc]. destruct r as [t [n k]].
  unfold record_step, record_row, row_ticker; simpl.
  constructor; simpl.
  - apply NoDup_dict_set; [apply eqb_eq | exact Hk].
  - intros k' ts'. rewrite dict_get_set by apply eqb_eq.
    destruct (PyStr.eqb k' k) eqn:E.
    + apply eqb_eq in E; subst k'. intros H; inversion H; subst ts'; clear H.
      destruct (dict_get PyStr.eqb (accionistas_map st) k) as [ts|] eqn:G;
        simpl.
      * destruct (Ht _ _ G) as [N [_ M]]. split; [apply set_add_NoDup, N|].
        split; [exists t; apply set_add_In; auto|].
        intros t'. rewrite set_add_In, appears_in_app, M.
        unfold row_key, row_ticker; simpl. intuition.
      * split; [constructor; [intros []|constructor]|].
        split; [exists t; left; reflexivity|].
        intros t'. rewrite appears_in_app.
        unfold row_key, row_ticker; simpl.
        pose proof (Ha _ G t'). intuition.
    + intros G. destruct (Ht _ _ G) as [N [X M]]. split; auto. split; auto.
      intros t'. rewrite appears_in_app, M. unfold row_key; simpl.
      apply eqb_neq in E. intuition congruence.
  - intros k'. rewrite dict_get_set by apply eqb_eq.
    destruct (PyStr.eqb k' k) eqn:E; [discriminate|].
    intros G t'. rewrite appears_in_app. unfold row_key; simpl.
    apply eqb_neq in E. pose proof (Ha _ G t'). intuition congruence.
  - intros k'. unfold counts_of; simpl.
    rewrite dict_get_set by apply eqb_eq.
    destruct (Hc k') as [N C]. unfold counts_of in N, C.
    destruct (PyStr.eqb k' k) eqn:E; simpl.
    + apply eqb_eq in E; subst k'. split.
      * apply NoDup_dict_set; [apply eqb_eq | exact N].
      * intros n'. rewrite dict_get_set by apply eqb_eq.
        rewrite occurrences_app. unfold row_key, row_name; simpl.
        rewrite eqb_refl; simpl. rewrite (eqb_sym n n').
        destruct (PyStr.eqb n' n) eqn:En.
        -- apply eqb_eq in En; subst n'. rewrite C.
           destruct (occurrences rows k n) as [|m] eqn:O; simpl.
           ++ reflexivity.
           ++ replace (Nat.eqb (m + 1) 0) with false
                by (symmetry; apply Nat.eqb_neq; lia).
              f_equal. lia.
        -- rewrite Nat.add_0_r. apply C.
    + split; auto. intros n'. rewrite occurrences_app.
      unfold row_key; simpl. rewrite (eqb_sym k k'), E; simpl.
      rewrite Nat.add_0_r. apply C.
Qed.

Lemma maps_ok_fold (rs rows : list row) (st : maps) :
  maps_ok rows st -> maps_ok (rows ++ rs) (fold_left record_step rs st).
Proof.
  revert rows st; induction rs as [|r rs IH]; intros rows st H; simpl.
  - rewrite app_nil_r; exact H.
  - replace (rows ++ r :: rs) with ((rows ++ [r]) ++ rs)
      by (rewrite <- app_assoc; reflexivity).
    apply IH, maps_ok_step, H.
Qed.

Lemma scan_files_ok (ps : list file) (st : maps) :
  scan_files empty_maps ps = Ok st -> maps_ok (flat_map file_rows ps) st.
Proof.
  intros H. rewrite (scan_files_rows _ _ H).
  apply (maps_ok_fold _ maps_ok_empty).
Qed.

End ScanFacts.

(** ** One shark per key *)

Lemma strictly_sorted (l : list pystr) :
  StronglySorted (fun a b => PyStr.ltb b a = false) l -> NoDup l ->
  StronglySorted (fun a b => PyStr.ltb a b = true) l.
Proof.
  induction 1 as [|x r Hr IH Hx]; intros N; constructor;
    inversion N; subst; auto.
  rewrite Forall_forall in *. intros y Hy.
  destruct (PyStr.ltb x y) eqn:E; auto.
  exfalso. rewrite (ltb_total _ _ E (Hx _ Hy)) in *. contradiction.
Qed.

Lemma occurrences_In (rows : list row) (t n k : pystr) :
  In (t, (n, k)) rows -> 0 < occurrences rows k n.
Proof.
  intros H. unfold occurrences.
  assert (G : In (t, (n, k))
                (filter (fun r => PyStr.eqb (row_key r) k
                                  && PyStr.eqb (row_name r) n) rows)).
  { apply filter_In; split; auto. unfold row_key, row_name; simpl.
    rewrite !eqb_refl; reflexivity. }
  destruct (filter _ rows); [destruct G | simpl; lia].
Qed.

Section SharkFacts.
Context {RT : PyRuntime}.

Lemma make_shark_for (rows : list row) (st : maps) (k : pystr)
  (ts : list pystr) :
  maps_ok rows st ->
  dict_get PyStr.eqb (accionistas_map st) k = Some ts ->
  shark_for rows k (make_shark (display_name_counts st) (k, ts)).
Proof.
  intros [Hk Ht Ha Hc] G.
  destruct (Ht _ _ G) as [N [[t0 Ht0] M]].
  destruct (Hc k) as [Nc C]. unfold counts_of in Nc, C.
  unfold shark_for, make_shark; simpl.
  split; [|split; [|split; [reflexivity|]]].
  - apply strictly_sorted.
    + apply (sorted_ok PyStr.ltb ltb_asym leb_trans).
    + eapply Permutation_NoDup; [symmetry; apply sorted_perm | exact N].
  - intros t. rewrite sorted_In. apply M.
  - set (cmp := fun x y : pystr * Z =>
                  key_ltb (- snd x, fst x)%Z (- snd y, fst y)%Z).
    set (inner := opt_default [] (dict_get PyStr.eqb (display_name_counts st) k))
      in *.
    assert (cmp_asym : forall x y, cmp x y = true -> cmp y x = false)
      by (intros x y; apply key_ltb_asym).
    assert (cmp_trans : forall x y z,
               cmp y x = false -> cmp z y = false -> cmp z x = false)
      by (intros x y z; apply key_leb_trans).
    assert (Hin : forall n, 0 < occurrences rows k n ->
                    In (n, Z.of_nat (occurrences rows k n)) inner).
    { intros n Hn. apply (dict_get_In PyStr.eqb eqb_eq). rewrite C.
      destruct (occurrences rows k n); [lia | reflexivity]. }
    destruct (proj1 (M t0) Ht0) as [n0 Hn0].
    pose proof (Hin _ (occurrences_In _ _ _ _ Hn0)) as Hn0'.
    destruct (sorted cmp inner) as [|[nm c] q] eqn:S.
    { apply (sorted_In cmp) in Hn0'. rewrite S in Hn0'. destruct Hn0'. }
    simpl.
    assert (Hx : In (nm, c) inner).
    { apply (sorted_In cmp). rewrite S. left; reflexivity. }
    pose proof (In_dict_get PyStr.eqb eqb_eq _ _ _ Nc Hx) as Gx.
    rewrite C in Gx.
    destruct (Nat.eqb (occurrences rows k nm) 0) eqn:O; [discriminate|].
    apply Nat.eqb_neq in O. inversion Gx as [Ec]. split; [lia|].
    intros n Hn.
    pose proof (sorted_head_least cmp cmp_asym cmp_trans _ S _ (Hin _ Hn)) as L.
    unfold cmp, key_ltb, PyStr.leb in *; simpl in L.
    rewrite orb_false_iff, andb_false_iff, Z.ltb_ge, Z.eqb_neq in L.
    destruct L as [L1 L2]. subst c.
    destruct (Nat.eq_dec (occurrences rows k n) (occurrences rows k nm))
      as [E|E]; [right | left; lia].
    split; auto. destruct L2 as [L2|L2]; [lia | rewrite L2; reflexivity].
Qed.

(** C4: for every canonical key seen during resolution, [build_sharks]
    emits a shark whose items are the strictly sorted list of the tickers
    where the key appeared, whose quantity is the length of that list, and
    whose name is a raw spelling of the key with the highest number of
    occurrences, the smallest such spelling when several tie. *)
Theorem build_sharks_shark_per_key (out_dir : list file)
  (sharks : list shark) (k : pystr) :
  build_sharks out_dir = Ok sharks ->
  (exists t, appears_in (seen_rows out_dir) k t) ->
  exists s, In s sharks /\ shark_for (seen_rows out_dir) k s.
Proof.
  unfold build_sharks, seen_rows.
  destruct (scan_files empty_maps (shareholder_files out_dir)) as [st|e] eqn:E;
    [|discriminate].
  intros H [t Ht]; inversion H; subst; clear H.
  pose proof (scan_files_ok _ E) as OK.
  destruct (dict_get PyStr.eqb (accionistas_map st) k) as [ts|] eqn:G.
  - exists (make_shark (display_name_counts st) (k, ts)). split.
    + apply sorted_In. apply in_map.
      apply (dict_get_In PyStr.eqb eqb_eq), G.
    + apply make_shark_for; assumption.
  - exfalso. exact (ok_absent OK G Ht).
Qed.

(** Every shark of the result is the shark of a key that was seen, and
    there are as many sharks as keys. *)
Lemma build_sharks_only_keys (out_dir : list file) (sharks : list shark)
  (s : shark) :
  build_sharks out_dir = Ok sharks -> In s sharks ->
  exists k, (exists t, appears_in (seen_rows out_dir) k t)
            /\ shark_for (seen_rows out_dir) k s.
Proof.
  unfold build_sharks, seen_rows.
  destruct (scan_files empty_maps (shareholder_files out_dir)) as [st|e] eqn:E;
    [|discriminate].
  intros H Hs; inversion H; subst; clear H.
  pose proof (scan_files_ok _ E) as OK.
  apply sorted_In, in_map_iff in Hs. destruct Hs as [[k ts] [<- Hin]].
  pose proof (In_dict_get PyStr.eqb eqb_eq _ _ _ (ok_keys OK) Hin) as G.
  exists k. split; [|apply make_shark_for; assumption].
  destruct (ok_tickers OK _ G) as [_ [[t Ht] M]].
  exists t. apply M, Ht.
Qed.

(** X19: there are as many sharks as canonical keys seen: the keys seen,
    each taken once, and the sharks of the result are equally many. *)
Lemma build_sharks_count (out_dir : list file) (sharks : list shark) :
  build_sharks out_dir = Ok sharks ->
  exists keys,
    NoDup keys
    /\ (forall k, In k keys <-> exists t, appears_in (seen_rows out_dir) k t)
    /\ List.length sharks = List.length keys.
Proof.
  unfold build_sharks, seen_rows.
  destruct (scan_files empty_maps (shareholder_files out_dir)) as [st|e] eqn:E;
    [|discriminate].
  intros H; inversion H; subst; clear H.
  pose proof (scan_files_ok _ E) as OK.
  exists (dict_keys (accionistas_map st)).
  split; [apply (ok_keys OK)|]. split.
  - intros k. split.
    + intros Hk.
      destruct (dict_get PyStr.eqb (accionistas_map st) k) as [ts|] eqn:G.
      * destruct (ok_tickers OK _ G) as [_ [[t Ht] M]].
        exists t. apply M, Ht.
      * apply (dict_get_None PyStr.eqb eqb_eq) in G. contradiction.
    + intros Ht.
      destruct (dict_get PyStr.eqb (accionistas_map st) k) as [ts|] eqn:G.
      * apply (dict_get_In PyStr.eqb eqb_eq) in G.
        change k with (fst (k, ts)). apply in_map, G.
      * destruct Ht as [t Ht]. exfalso. exact (ok_absent OK G Ht).
  - rewrite sorted_length, length_map. unfold dict_keys.
    rewrite length_map. reflexivity.
Qed.

End SharkFacts.

(** ** Canonical keys *)

Ltac bool_to_prop :=
  repeat rewrite ?orb_true_iff, ?orb_false_iff, ?andb_true_iff,
    ?andb_false_iff, ?negb_true_iff, ?negb_false_iff, ?N.leb_le, ?N.leb_gt,
    ?N.ltb_lt, ?N.ltb_ge, ?N.eqb_eq, ?N.eqb_neq in *.

Ltac char_fact :=
  unfold key_char, is_az09, not_az09, is_space, is_quote_like, is_ascii,
    ascii_lower, is_upper_az, is_lower_az, is_digit in *;
  bool_to_prop; lia.

Lemma az09_not_space (c : codepoint) : is_az09 c = true -> is_space c = false.
Proof. intros H. char_fact. Qed.

Lemma az09_not_sp (c : codepoint) : is_az09 c = true -> N.eqb c 32 = false.
Proof. intros H. char_fact. Qed.

Lemma az09_kept (c : codepoint) : is_az09 c = true -> not_az09 c = false.
Proof. unfold not_az09. intros ->. reflexivity. Qed.

Lemma key_char_not_quote (c : codepoint) :
  key_char c -> negb (is_quote_like c) = true.
Proof. intros H. char_fact. Qed.

Lemma key_char_ascii (c : codepoint) : key_char c -> is_ascii c = true.
Proof. intros H. char_fact. Qed.

Lemma key_char_lower (c : codepoint) : key_char c -> ascii_lower c = c.
Proof.
  intros H. unfold ascii_lower.
  destruct (is_upper_az c) eqn:E; auto. exfalso. char_fact.
Qed.

Lemma key_char_az09 (c : codepoint) :
  key_char c -> N.eqb c 32 = false -> is_az09 c = true.
Proof. intros [H|H] E; auto. subst. discriminate. Qed.

(** *** The tokens of any name are tokens of a key *)

Lemma re_sub_runs_not_az09_chars (b : bool) (s : pystr) :
  Forall key_char (re_sub_runs_aux not_az09 b s).
Proof.
  revert b; induction s as [|c r IH]; intros b; simpl; [constructor|].
  destruct (not_az09 c) eqn:E.
  - destruct b; auto. constructor; auto. left; reflexivity.
  - constructor; auto. right. unfold not_az09 in E.
    apply negb_false_iff in E. exact E.
Qed.

Lemma re_sub_runs_chars (cls : codepoint -> bool) (b : bool) (s : pystr) :
  Forall key_char s -> Forall key_char (re_sub_runs_aux cls b s).
Proof.
  intros H; revert b; induction H as [|c r Hc Hr IH]; intros b; simpl;
    [constructor|].
  destruct (cls c); [destruct b|]; auto.
  constructor; auto. left; reflexivity.
Qed.

Lemma lstrip_chars (P : codepoint -> Prop) (s : pystr) :
  Forall P s -> Forall P (lstrip s).
Proof.
  induction 1 as [|c r Hc Hr IH]; simpl; auto.
  destruct (is_space c); auto.
Qed.

Lemma strip_chars (P : codepoint -> Prop) (s : pystr) :
  Forall P s -> Forall P (strip s).
Proof.
  intros H. unfold strip, rstrip.
  apply Forall_rev, lstrip_chars, Forall_rev, lstrip_chars, H.
Qed.

Lemma split_sp_chars (s : pystr) :
  Forall key_char s ->
  Forall (Forall (fun c => is_az09 c = true)) (split_sp s).
Proof.
  induction 1 as [|c r Hc Hr IH]; simpl.
  - repeat constructor.
  - destruct (N.eqb c 32) eqn:E.
    + constructor; auto.
    + pose proof (key_char_az09 Hc E) as Hz.
      destruct (split_sp r) as [|t ts]; [repeat constructor; auto|].
      inversion IH; subst. constructor; auto.
Qed.

Lemma tokens_ok (s : pystr) :
  Forall key_char s ->
  Forall token_ok (filter (fun t => negb (is_empty t)) (split_sp s)).
Proof.
  intros H. pose proof (split_sp_chars H) as G.
  induction G as [|t ts Ht Hts IH]; simpl; [constructor|].
  destruct t as [|c t]; simpl; auto.
  constructor; auto. split; [discriminate | exact Ht].
Qed.

(** *** A key is left as it is by every step *)

Lemma join_sp_chars (toks : list pystr) :
  Forall token_ok toks -> Forall key_char (join_sp toks).
Proof.
  induction 1 as [|t ts [_ Ht] Hts IH]; simpl; [constructor|].
  assert (Forall key_char t)
    by (eapply Forall_impl; [|exact Ht]; intros c Hc; right; exact Hc).
  destruct ts as [|u us]; auto.
  apply Forall_app; split; auto. constructor; auto. left; reflexivity.
Qed.

Lemma join_sp_head (t : pystr) (ts : list pystr) :
  token_ok t ->
  exists c r, join_sp (t :: ts) = c :: r /\ is_az09 c = true.
Proof.
  intros [Hn Ht]. destruct t as [|c t]; [congruence|].
  inversion Ht; subst.
  destruct ts; simpl; eauto.
Qed.

Lemma join_sp_last (toks : list pystr) :
  Forall token_ok toks -> toks <> [] ->
  exists r z, join_sp toks = r ++ [z] /\ is_az09 z = true.
Proof.
  induction 1 as [|t ts [Hn Ht] Hts IH]; intros N; [congruence|].
  destruct ts as [|u us].
  - simpl. destruct (exists_last Hn) as [r [z ->]].
    exists r, z; split; auto.
    apply Forall_app in Ht. destruct Ht as [_ Hz]. inversion Hz; auto.
  - destruct IH as [r [z [E Hz]]]; [discriminate|].
    exists (t ++ 32%N :: r), z. split; auto.
    change (join_sp (t :: u :: us)) with (t ++ 32%N :: join_sp (u :: us)).
    rewrite E, <- app_assoc. reflexivity.
Qed.

Lemma strip_key (toks : list pystr) :
  Forall token_ok toks -> strip (join_sp toks) = join_sp toks.
Proof.
  intros H. destruct toks as [|t ts]; [reflexivity|].
  destruct (join_sp_last H) as [r [z [E Hz]]]; [discriminate|].
  inversion H; subst.
  destruct (join_sp_head ts H2) as [c [q [E' Hc]]].
  unfold strip, rstrip.
  assert (L : lstrip (join_sp (t :: ts)) = join_sp (t :: ts)).
  { rewrite E'. simpl. rewrite (az09_not_space _ Hc). reflexivity. }
  rewrite L, E, rev_app_distr. simpl. rewrite (az09_not_space _ Hz).
  change (z :: rev r) with (rev [z] ++ rev r).
  rewrite <- rev_app_distr, rev_involutive. reflexivity.
Qed.

Section KeyFacts.
Context {RT : PyRuntime}.

Lemma lower_key (s : pystr) : Forall key_char s -> lower s = s.
Proof.
  intros H. unfold lower.
  replace (forallb is_ascii s) with true.
  - induction H as [|c r Hc Hr IH]; simpl; auto.
    rewrite (key_char_lower Hc), IH. reflexivity.
  - symmetry. apply forallb_forall. rewrite Forall_forall in H.
    intros c Hc. apply key_char_ascii, H, Hc.
Qed.

End KeyFacts.

Lemma re_delete_key (s : pystr) :
  Forall key_char s -> re_delete is_quote_like s = s.
Proof.
  unfold re_delete. induction 1 as [|c r Hc Hr IH]; simpl; auto.
  rewrite (key_char_not_quote Hc), IH. reflexivity.
Qed.

Lemma re_sub_runs_token (cls : codepoint -> bool) (b : bool)
  (t r : pystr) :
  t <> [] -> Forall (fun c => cls c = false) t ->
  re_sub_runs_aux cls b (t ++ r) = t ++ re_sub_runs_aux cls false r.
Proof.
  intros N H; revert b; induction H as [|c q Hc Hq IH]; intros b;
    [congruence|].
  simpl. rewrite Hc. destruct q as [|c' q']; [reflexivity|].
  rewrite IH by discriminate. reflexivity.
Qed.

Lemma re_sub_runs_key (cls : codepoint -> bool) (toks : list pystr) :
  cls 32%N = true ->
  (forall c, is_az09 c = true -> cls c = false) ->
  Forall token_ok toks ->
  forall b, toks <> [] ->
    re_sub_runs_aux cls b (join_sp toks) = join_sp toks.
Proof.
  intros Hs Hc. induction 1 as [|t ts [Hn Ht] Hts IH]; intros b N;
    [congruence|].
  assert (Ht' : Forall (fun c => cls c = false) t)
    by (eapply Forall_impl; [|exact Ht]; auto).
  destruct ts as [|u us].
  - simpl. rewrite <- (app_nil_r t) at 1.
    rewrite re_sub_runs_token; auto. simpl. apply app_nil_r.
  - change (join_sp (t :: u :: us)) with (t ++ 32%N :: join_sp (u :: us)).
    rewrite re_sub_runs_token; auto. simpl. rewrite Hs.
    rewrite IH by discriminate. reflexivity.
Qed.

Lemma split_sp_token (t r : pystr) :
  Forall (fun c => is_az09 c = true) t ->
  split_sp (t ++ r)
  = match split_sp r with
    | [] => [t]
    | u :: us => (t ++ u) :: us
    end.
Proof.
  induction 1 as [|c q Hc Hq IH]; simpl.
  - destruct (split_sp r) eqn:E; auto.
    destruct r; simpl in E; [discriminate|].
    destruct (N.eqb c 32); [discriminate|].
    destruct (split_sp r); discriminate.
  - rewrite (az09_not_sp _ Hc), IH. destruct (split_sp r); reflexivity.
Qed.

Lemma split_sp_key (toks : list pystr) :
  Forall token_ok toks -> toks <> [] -> split_sp (join_sp toks) = toks.
Proof.
  induction 1 as [|t ts [Hn Ht] Hts IH]; intros N; [congruence|].
  destruct ts as [|u us].
  - simpl. rewrite <- (app_nil_r t) at 1. rewrite split_sp_token; auto.
    simpl. rewrite app_nil_r. reflexivity.
  - change (join_sp (t :: u :: us)) with (t ++ 32%N :: join_sp (u :: us)).
    rewrite split_sp_token; auto.
    change (split_sp (32%N :: join_sp (u :: us)))
      with ([] :: split_sp (join_sp (u :: us))).
    rewrite IH by discriminate. rewrite app_nil_r. reflexivity.
Qed.

Lemma filter_nonempty_tokens (toks : list pystr) :
  Forall token_ok toks ->
  filter (fun t => negb (is_empty t)) toks = toks.
Proof.
  induction 1 as [|t ts [Hn Ht] Hts IH]; simpl; auto.
  destruct t; [congruence|]. simpl. rewrite IH. reflexivity.
Qed.

Section NormalizeFacts.
Context {RT : PyRuntime}.

Lemma tokens_of_ok (name : pystr) : Forall token_ok (tokens_of name).
Proof.
  apply tokens_ok, strip_chars, re_sub_runs_chars, re_sub_runs_not_az09_chars.
Qed.

Lemma lstrip_head (s : pystr) (c : codepoint) (r : pystr) :
  lstrip s = c :: r -> is_space c = false.
Proof.
  induction s as [|a s IH]; simpl; [discriminate|].
  destruct (is_space a) eqn:E; auto.
  intros H; inversion H; subst; exact E.
Qed.

Lemma lstrip_snoc (m : pystr) (a : codepoint) :
  is_space a = false -> lstrip (m ++ [a]) = lstrip m ++ [a].
Proof.
  intros H. induction m as [|b m IH]; simpl; [rewrite H; reflexivity|].
  destruct (is_space b); auto.
Qed.

Lemma strip_head (s : pystr) (c : codepoint) (r : pystr) :
  strip s = c :: r -> is_space c = false.
Proof.
  unfold strip, rstrip. destruct (lstrip s) as [|a l] eqn:E; [discriminate|].
  pose proof (lstrip_head _ E) as Ha.
  simpl. rewrite lstrip_snoc by exact Ha. rewrite rev_app_distr. simpl.
  intros H; inversion H; subst; exact Ha.
Qed.

(** X20: where the function reaches [tokens[0]], there is a token: the
    index is never out of range, and the default of [hd] in the model is
    never used. *)
Lemma tokens_of_nonempty (name : pystr) :
  is_empty
    (strip
       (re_sub_runs is_space
          (re_sub_runs not_az09
             (re_delete is_quote_like (lower (strip name)))))) = false ->
  tokens_of name <> [].
Proof.
  unfold tokens_of.
  set (s := strip _). intros H.
  assert (C : Forall key_char s)
    by apply strip_chars, re_sub_runs_chars, re_sub_runs_not_az09_chars.
  destruct s as [|c r] eqn:E; [discriminate|].
  pose proof (strip_head _ E) as Hc.
  inversion C as [|? ? Kc _]; subst.
  assert (N : N.eqb c 32 = false).
  { destruct (N.eqb_spec c 32) as [->|]; [exact Hc | reflexivity]. }
  simpl. rewrite N. destruct (split_sp r); simpl; discriminate.
Qed.

Lemma normalize_empty : _normalize_shark_name [] = [].
Proof. reflexivity. Qed.

(** On a string of tokens joined by single spaces, the function only
    filters the stopwords. *)
Lemma normalize_key (toks : list pystr) :
  Forall token_ok toks -> toks <> [] ->
  _normalize_shark_name (join_sp toks)
  = match filter (fun t => negb (is_stopword t)) toks with
    | [] => hd [] toks
    | f => join_sp f
    end.
Proof.
  intros H N. unfold _normalize_shark_name.
  pose proof (join_sp_chars H) as C.
  rewrite (strip_key H), (lower_key C), (re_delete_key C).
  unfold re_sub_runs.
  rewrite (re_sub_runs_key not_az09 eq_refl az09_kept H false N).
  rewrite (re_sub_runs_key is_space eq_refl az09_not_space H false N).
  rewrite (strip_key H), (split_sp_key H N), (filter_nonempty_tokens H).
  destruct toks as [|t ts]; [congruence|].
  inversion H; subst.
  destruct (join_sp_head ts H2) as [c [q [-> _]]]. cbn [is_empty].
  destruct (filter (fun u => negb (is_stopword u)) (t :: ts)); reflexivity.
Qed.

Lemma filter_idem (A : Type) (f : A -> bool) (l : list A) :
  filter f (filter f l) = filter f l.
Proof.
  induction l as [|x r IH]; simpl; auto.
  destruct (f x) eqn:E; simpl; rewrite ?E, IH; reflexivity.
Qed.

(** C8: canonicalization is idempotent, also when the first application
    fell back to a stopword. *)
Theorem normalize_idempotent (x : pystr) :
  _normalize_shark_name (_normalize_shark_name x) = _normalize_shark_name x.
Proof.
  unfold _normalize_shark_name at 2 3.
  destruct (is_empty (lower (strip x))); [apply normalize_empty|].
  destruct (is_empty _); [apply normalize_empty|].
  fold (tokens_of x).
  pose proof (tokens_of_ok x) as H.
  destruct (filter (fun t => negb (is_stopword t)) (tokens_of x))
    as [|f fs] eqn:F.
  - destruct (tokens_of x) as [|t ts]; [apply normalize_empty|].
    simpl in *. inversion H; subst.
    destruct (is_stopword t) eqn:S; [|discriminate].
    assert (H1 : Forall token_ok [t]) by (constructor; auto).
    change t with (join_sp [t]) at 1.
    rewrite (normalize_key H1) by discriminate.
    simpl. rewrite S. reflexivity.
  - assert (H1 : Forall token_ok (f :: fs)).
    { rewrite <- F. apply Forall_forall. intros t Ht.
      apply filter_In in Ht. rewrite Forall_forall in H. apply H, Ht. }
    rewrite (normalize_key H1) by discriminate.
    rewrite <- F, filter_idem, F. reflexivity.
Qed.

End NormalizeFacts.

(** ** The examples of the specification *)

Import Fixtures.

(** C2, as the specification states it, fails: whatever the Unicode tables
    are, "BANCO ITAU SA" and "banco   itau, s.a." do not get the same key
    (the first loses its suffix "sa", the second keeps the tokens "s" and
    "a"). *)
Lemma normalize_dotted_suffix_differs :
  ~ exists RT : PyRuntime,
      @_normalize_shark_name RT (py "Banco Ita" ++ 250%N :: py " S/A")
      = @_normalize_shark_name RT (py "BANCO ITAU SA")
      /\ @_normalize_shark_name RT (py "BANCO ITAU SA")
         = @_normalize_shark_name RT (py "banco   itau, s.a.").
Proof.
  intros [RT [_ H]]. vm_compute in H. discriminate.
Qed.

(** C2, amended: canonicalization does not see case, nor the punctuation
    and spacing between the words; the three ASCII spellings below, whose
    suffix is written "sa" in one piece, all get the key "banco itau". *)
Theorem normalize_case_punctuation_insensitive {RT : PyRuntime} :
  _normalize_shark_name (py "Banco Itau SA") = py "banco itau"
  /\ _normalize_shark_name (py "BANCO ITAU SA") = py "banco itau"
  /\ _normalize_shark_name (py "banco   itau, sa.") = py "banco itau".
Proof. repeat split; vm_compute; reflexivity. Qed.

(** A suffix written with inner punctuation: "S/A" and "s.a." are cut
    into the tokens "s" and "a", which are not stopwords, although "s/a" is
    in the stopword set. *)
Lemma normalize_split_suffix {RT : PyRuntime} :
  _normalize_shark_name (py "Banco Itau S/A") = py "banco itau s a"
  /\ _normalize_shark_name (py "banco   itau, s.a.") = py "banco itau s a".
Proof. split; vm_compute; reflexivity. Qed.

(** The full-stopword example: "Ltda" gets the key "ltda". *)
Lemma normalize_full_stopword {RT : PyRuntime} :
  _normalize_shark_name (py "Ltda") = py "ltda".
Proof. vm_compute; reflexivity. Qed.

(** C1, as the specification states it, fails: the result is not the pair
    of sharks named "ACME Corp" and "Beta". *)
Lemma acme_sharks_not_as_stated :
  ~ exists RT : PyRuntime,
      @build_sharks RT acme_files
      = Ok [ mk_shark "ACME Corp" 2 ["A"; "B"]; mk_shark "Beta" 1 ["C"] ]%string.
Proof.
  intros [RT H]. vm_compute in H. discriminate.
Qed.

(** C1, amended: the four rows give exactly two sharks; the first has
    quantity 2, tickers [A, B] and the name "ACME" (the three spellings of
    the key "acme" occur once each, and "ACME" is the smallest); the second
    has quantity 1, tickers [C] and the name "Beta Ltd", its only raw
    spelling. *)
Theorem acme_sharks {RT : PyRuntime} :
  build_sharks acme_files
  = Ok [acme_shark; beta_shark]
  /\ _normalize_shark_name (py "ACME Corp") = py "acme"
  /\ _normalize_shark_name (py "ACME CORP") = py "acme"
  /\ _normalize_shark_name (py "ACME") = py "acme"
  /\ _normalize_shark_name (py "Beta Ltd") = py "beta".
Proof. repeat split; vm_compute; reflexivity. Qed.

(** C9 at an input where the code departs from it: a file that parses to
    [null] makes the whole resolution raise, while the other files alone
    resolve to two sharks. *)
Theorem null_file_aborts {RT : PyRuntime} :
  passed_over null_file = false
  /\ build_sharks (acme_files ++ [null_file]) = Raise AttributeError
  /\ build_sharks acme_files
     = Ok [acme_shark; beta_shark].
Proof. repeat split; vm_compute; reflexivity. Qed.

(** C10, as stated, fails: a stem that is not ASCII can still give a
    ticker.  The file named with the long s and no ticker field is not
    passed over, whatever the Unicode tables are. *)
Lemma long_s_file_not_skipped :
  ~ exists RT : PyRuntime, @build_sharks RT [long_s_file] = Ok [].
Proof.
  intros [RT H]. vm_compute in H. discriminate.
Qed.

(** The long s is read as the ticker "S". *)
Lemma long_s_file_sharks {RT : PyRuntime} :
  build_sharks [long_s_file] = Ok [ mk_shark "Gamma" 1 ["S"%string] ].
Proof. vm_compute; reflexivity. Qed.

(** ** The ticker read from the file name *)

Lemma span_all (cls : codepoint -> bool) (s : pystr) (c : codepoint)
  (r : pystr) :
  forallb cls s = true -> cls c = false ->
  span cls (s ++ c :: r) = (s, c :: r).
Proof.
  intros H Hc. induction s as [|a s IH]; simpl in *.
  - rewrite Hc. reflexivity.
  - apply andb_true_iff in H. destruct H as [Ha Hs].
    rewrite Ha, (IH Hs). reflexivity.
Qed.

Lemma span_stop (cls : codepoint -> bool) (s : pystr) :
  forallb cls s = false ->
  exists pre c rem,
    s = pre ++ c :: rem /\ cls c = false
    /\ forall r, span cls (s ++ r) = (pre, (c :: rem) ++ r).
Proof.
  induction s as [|a s IH]; simpl; [discriminate|].
  destruct (cls a) eqn:Ea; simpl.
  - intros H. destruct (IH H) as [pre [c [rem [E [Hc Hs]]]]].
    exists (a :: pre), c, rem. subst s. repeat split; auto.
    intros r. rewrite Hs. reflexivity.
  - intros _. exists [], a, s. repeat split; auto.
Qed.

Lemma literals_ignorecase_split (pat s t : pystr) :
  literals_ignorecase pat s = Some t ->
  exists s1, s = s1 ++ t /\ List.length s1 = List.length pat.
Proof.
  revert s; induction pat as [|p pat IH]; intros s; simpl.
  - intros H; inversion H. exists []; auto.
  - destruct s as [|c s]; [discriminate|].
    destruct (literal_ignorecase p c); [|discriminate].
    intros H. destruct (IH _ H) as [s1 [E L]].
    exists (c :: s1). subst s. simpl. auto.
Qed.

Lemma suffix_after_stem (c : codepoint) (rem : pystr) :
  match literals_ignorecase acionistas_suffix ((c :: rem) ++ acionistas_suffix)
  with
  | Some [] => False
  | Some [x] => N.eqb x 10 = false
  | _ => True
  end.
Proof.
  destruct (literals_ignorecase _ _) as [t|] eqn:E; auto.
  destruct (literals_ignorecase_split _ _ E) as [s1 [Es L]].
  assert (Ln : List.length ((c :: rem) ++ acionistas_suffix)
               = List.length (s1 ++ t)) by (rewrite Es; reflexivity).
  rewrite !length_app, L in Ln. simpl in Ln.
  destruct t as [|x [|y t]]; simpl in Ln; try lia; auto.
  destruct rem; simpl in Ln; [|lia].
  assert (La : last ((c :: []) ++ acionistas_suffix) 0%N = last (s1 ++ [x]) 0%N)
    by (rewrite Es; reflexivity).
  rewrite last_last in La. subst x. reflexivity.
Qed.

Lemma match_ticker_name_none (stem : pystr) :
  stem = [] \/ forallb az09_ignorecase stem = false ->
  match_ticker_name (stem ++ acionistas_suffix) = None.
Proof.
  intros [->|H]; [reflexivity|].
  destruct (span_stop _ _ H) as [pre [c [rem [E [Hc Hs]]]]].
  unfold match_ticker_name. rewrite Hs.
  destruct (is_empty pre); auto.
  pose proof (suffix_after_stem c rem) as G.
  destruct (literals_ignorecase _ _) as [[|x [|y t]]|]; auto; [tauto|].
  rewrite G. reflexivity.
Qed.

Lemma match_ticker_name_some (stem : pystr) :
  stem <> [] -> forallb az09_ignorecase stem = true ->
  match_ticker_name (stem ++ acionistas_suffix) = Some stem.
Proof.
  intros N H. unfold match_ticker_name.
  change acionistas_suffix with (46%N :: py "acionistas.json") at 1.
  rewrite span_all; [| exact H | reflexivity].
  destruct stem; [congruence|]. reflexivity.
Qed.

(** C10, amended: when the ticker field gives nothing (it is missing or
    falsy, or blank once stripped), the file name gives the ticker exactly
    when its stem before ".acionistas.json" is not empty and every code
    point of it is matched by [[a-z0-9]] without regard to case: an ASCII
    letter or digit, or one of U+0130, U+0131, U+017F, U+212A.  Then the
    ticker is the stem in upper case; otherwise the file is passed over and
    the dictionaries are left as they were. *)
Theorem fallback_ticker_from_file_name {RT : PyRuntime} (st : maps)
  (stem : pystr) (payload : pydict) :
  upper (strip (str_get_or payload "ticker" "")) = [] ->
  let p := {| name := stem ++ acionistas_suffix;
              loaded := Some (PDict payload) |} in
  if negb (is_empty stem) && forallb az09_ignorecase stem
  then artifact_ticker (name p) payload = upper (strip stem)
  else scan_file st p = Ok st /\ file_rows p = [].
Proof.
  intros Hf p.
  destruct (negb (is_empty stem) && forallb az09_ignorecase stem) eqn:C.
  - apply andb_true_iff in C. destruct C as [C1 C2].
    unfold artifact_ticker; simpl. rewrite Hf; simpl.
    rewrite match_ticker_name_some; auto.
    destruct stem; [discriminate | congruence].
  - assert (M : match_ticker_name (stem ++ acionistas_suffix) = None).
    { apply match_ticker_name_none. apply andb_false_iff in C.
      destruct C as [C|C]; auto. left. destruct stem; auto; discriminate. }
    unfold scan_file, file_rows, artifact_ticker; simpl.
    rewrite Hf, M; simpl.
    destruct (dict_get PyStr.eqb payload (py "items")) as [[| | | | |l|]|];
      auto.
Qed.

(** C10 at the file named "petr-4.acionistas.json", which has no ticker
    field: it is passed over. *)
Lemma fallback_ticker_hyphen_witness :
  @scan_file ascii_runtime empty_maps hyphen_file = Ok empty_maps
  /\ @file_rows ascii_runtime hyphen_file = [].
Proof.
  exact (@fallback_ticker_from_file_name ascii_runtime empty_maps
           (py "petr-4")
           [(py "items", PList [acionista "Gamma"])] eq_refl).
Defined.

(** ** The grouping loop *)

Lemma pair_eqb_eq (a b : pystr * pystr) : pair_eqb a b = true <-> a = b.
Proof.
  destruct a as [a1 a2], b as [b1 b2]. unfold pair_eqb; simpl.
  rewrite andb_true_iff, !eqb_eq. split; [intros [-> ->] | intros H; inversion H];
    auto.
Qed.

Lemma pair_eqb_refl (a : pystr * pystr) : pair_eqb a a = true.
Proof. apply pair_eqb_eq; reflexivity. Qed.

Lemma pair_eqb_sym (a b : pystr * pystr) : pair_eqb a b = pair_eqb b a.
Proof.
  unfold pair_eqb. rewrite (eqb_sym (fst a)), (eqb_sym (snd a)). reflexivity.
Qed.

Section GroupFacts.
Context {RT : PyRuntime}.

Lemma flat_map_dict_set (d : list bucket) (k : pystr * pystr) (x : pydict) :
  Permutation
    (flat_map snd
       (dict_set pair_eqb d k (opt_default [] (dict_get pair_eqb d k) ++ [x])))
    (flat_map snd d ++ [x]).
Proof.
  induction d as [|[k0 v0] r IH].
  - reflexivity.
  - cbn [dict_set dict_get].
    destruct (pair_eqb k k0) eqn:E; cbn [flat_map opt_default snd].
    + rewrite <- !app_assoc. apply Permutation_app_head.
      apply Permutation_app_comm.
    + rewrite IH, app_assoc. reflexivity.
Qed.

Lemma by_key_ok_step (seen : list pydict) (d : list bucket) (x : pydict) :
  by_key_ok seen d -> by_key_ok (seen ++ [x]) (add_item d x).
Proof.
  intros [Hk Hg Hp]. unfold add_item. constructor.
  - apply NoDup_dict_set; [apply pair_eqb_eq | exact Hk].
  - intros k. rewrite dict_get_set by apply pair_eqb_eq.
    unfold with_key in *. rewrite filter_app. simpl.
    rewrite (pair_eqb_sym (item_key x) k).
    destruct (pair_eqb k (item_key x)) eqn:E.
    + apply pair_eqb_eq in E; subst k. rewrite Hg.
      destruct (filter _ seen); reflexivity.
    + rewrite app_nil_r. apply Hg.
  - rewrite flat_map_dict_set. apply Permutation_app_tail, Hp.
Qed.

Lemma by_key_ok_fold (rest seen : list pydict) (d : list bucket) :
  by_key_ok seen d -> by_key_ok (seen ++ rest) (fold_left add_item rest d).
Proof.
  revert seen d; induction rest as [|x rest IH]; intros seen d H; simpl.
  - rewrite app_nil_r; exact H.
  - replace (seen ++ x :: rest) with ((seen ++ [x]) ++ rest)
      by (rewrite <- app_assoc; reflexivity).
    apply IH, by_key_ok_step, H.
Qed.

Lemma group_by_key_ok (items : list pydict) :
  by_key_ok items (group_by_key items).
Proof.
  apply (by_key_ok_fold items (seen := []) (d := [])).
  constructor; simpl; [constructor | reflexivity | constructor].
Qed.

(** Every bucket holds the records of its key, in their order, and is not
    empty. *)
Lemma bucket_records (items : list pydict) (b : bucket) :
  In b (group_by_key items) ->
  snd b = with_key (fst b) items /\ snd b <> [].
Proof.
  intros H. destruct (group_by_key_ok items) as [Hk Hg _].
  destruct b as [k recs]. simpl.
  pose proof (In_dict_get pair_eqb pair_eqb_eq _ _ _ Hk H) as G.
  rewrite Hg in G. destruct (with_key k items); inversion G; subst.
  split; [reflexivity | discriminate].
Qed.

Lemma sorted_buckets_perm (items : list pydict) :
  Permutation (sorted_buckets items) (group_by_key items).
Proof. apply sorted_perm. Qed.

Lemma sorted_buckets_keys (items : list pydict) :
  NoDup (map fst (sorted_buckets items)).
Proof.
  eapply Permutation_NoDup.
  - symmetry. apply Permutation_map, sorted_buckets_perm.
  - apply (bk_keys (group_by_key_ok items)).
Qed.

End GroupFacts.

Section EmitFacts.
Context {RT : PyRuntime}.
Variables ext generated_at : pystr.

Lemma kinds_exclusive (b : bucket) :
  (is_volume b = true /\ is_magic_formula b = false /\ is_ordinary b = false)
  \/ (is_volume b = false /\ is_magic_formula b = true
      /\ is_ordinary b = false)
  \/ (is_volume b = false /\ is_magic_formula b = false
      /\ is_ordinary b = true).
Proof.
  unfold is_ordinary, is_magic_formula.
  destruct (is_volume b); simpl; auto.
  destruct (PyStr.eqb (snd (fst b)) (py "magic_formula")); simpl; auto.
Qed.

Lemma fresh_after (m : list (pystr * pyval)) (t t' : pystr) (v : pyval) :
  ~ In t' (dict_keys m) -> t' <> t -> ~ In t' (dict_keys (m ++ [(t, v)])).
Proof.
  unfold dict_keys. rewrite map_app, in_app_iff. simpl. intuition.
Qed.

Lemma emit_fold (bs : list bucket) (out : outputs) :
  NoDup (map fst bs) ->
  (forall b, In b bs -> is_volume b = true ->
     ~ In (fst (fst b)) (dict_keys (volume_map out))) ->
  (forall b, In b bs -> is_magic_formula b = true ->
     ~ In (fst (fst b)) (dict_keys (magic_formula_map out))) ->
  fold_left (emit ext generated_at) bs out
  = {| written :=
         written out ++ map (written_of ext generated_at) (filter is_ordinary bs);
       volume_map := volume_map out ++ map wide_of (filter is_volume bs);
       magic_formula_map :=
         magic_formula_map out ++ map wide_of (filter is_magic_formula bs) |}.
Proof.
  revert out; induction bs as [|b bs IH]; intros out N Hv Hm.
  - simpl. rewrite !app_nil_r. destruct out; reflexivity.
  - inversion N as [|? ? Nb Nbs]; subst.
    assert (Hne : forall b', In b' bs -> fst b' <> fst b).
    { intros b' Hb' E. apply Nb. rewrite <- E. apply in_map, Hb'. }
    cbn [fold_left filter].
    destruct b as [[t s] recs].
    unfold emit at 2, is_ordinary, is_magic_formula, is_volume.
    cbn [fst snd].
    destruct (PyStr.eqb s (py "volume")) eqn:Ev; cbn [negb andb].
    + rewrite IH; clear IH; auto; cbn [written volume_map magic_formula_map].
      * rewrite dict_set_fresh;
          [| apply eqb_eq | apply (Hv _ (or_introl eq_refl)); exact Ev].
        cbn [map]. rewrite <- app_assoc. reflexivity.
      * intros b' Hb' Vb'.
        rewrite dict_set_fresh;
          [| apply eqb_eq | apply (Hv _ (or_introl eq_refl)); exact Ev].
        apply fresh_after; [apply Hv; [right; exact Hb' | exact Vb'] |].
        intros E. apply (Hne _ Hb'). destruct b' as [[t' s'] recs'].
        unfold is_volume in Vb'. simpl in *.
        apply eqb_eq in Ev, Vb'. congruence.
      * intros b' Hb'. apply Hm. right; exact Hb'.
    + destruct (PyStr.eqb s (py "magic_formula")) eqn:Em; cbn [negb andb].
      * assert (Mb : is_magic_formula ((t, s), recs) = true).
        { unfold is_magic_formula, is_volume. cbn [fst snd].
          rewrite Ev, Em. reflexivity. }
        rewrite IH; clear IH; auto;
          cbn [written volume_map magic_formula_map].
        -- rewrite dict_set_fresh;
             [| apply eqb_eq | apply (Hm _ (or_introl eq_refl)); exact Mb].
           cbn [map]. rewrite <- app_assoc. reflexivity.
        -- intros b' Hb'. apply Hv. right; exact Hb'.
        -- intros b' Hb' Vb'.
           rewrite dict_set_fresh;
             [| apply eqb_eq | apply (Hm _ (or_introl eq_refl)); exact Mb].
           apply fresh_after; [apply Hm; [right; exact Hb' | exact Vb'] |].
           intros E. apply (Hne _ Hb'). destruct b' as [[t' s'] recs'].
           unfold is_magic_formula in Vb'. simpl in *.
           apply andb_true_iff in Vb'. destruct Vb' as [_ Vb'].
           apply eqb_eq in Em, Vb'. congruence.
      * rewrite IH; clear IH; auto;
          cbn [written volume_map magic_formula_map].
        -- cbn [map]. rewrite <- app_assoc. reflexivity.
        -- intros b' Hb'. apply Hv. right; exact Hb'.
        -- intros b' Hb'. apply Hm. right; exact Hb'.
Qed.

(** The outputs of the loop: every bucket, taken in ascending key order,
    goes to exactly one of the per-ticker files and the two wide maps. *)
Lemma group_outputs (items : list pydict) :
  group ext generated_at items
  = {| written :=
         map (written_of ext generated_at)
           (filter is_ordinary (sorted_buckets items));
       volume_map := map wide_of (filter is_volume (sorted_buckets items));
       magic_formula_map :=
         map wide_of (filter is_magic_formula (sorted_buckets items)) |}.
Proof.
  unfold group. rewrite emit_fold; auto using sorted_buckets_keys.
Qed.

End EmitFacts.

Section WideFacts.
Context {RT : PyRuntime}.

(** The buckets of one kind still have distinct keys. *)
Lemma kind_keys_NoDup (kind : bucket -> bool) (bs : list bucket) :
  NoDup (map fst bs) -> NoDup (map fst (filter kind bs)).
Proof.
  intros N. induction bs as [|b r IH]; simpl; auto.
  inversion N as [|? ? Nb Nr]; subst.
  destruct (kind b); simpl; auto. constructor; auto.
  rewrite in_map_iff in *. intros [y [E Hy]]. apply Nb.
  exists y. split; auto. apply filter_In in Hy. tauto.
Qed.

Lemma wide_keys_NoDup (s0 : pystr) (l : list bucket) :
  NoDup (map fst l) -> Forall (fun b => snd (fst b) = s0) l ->
  NoDup (dict_keys (map wide_of l)).
Proof.
  unfold dict_keys. induction l as [|b r IH]; simpl; intros N F;
    [constructor|].
  inversion N; subst. inversion F; subst. constructor; auto.
  rewrite map_map, in_map_iff in *. intros [b' [E Hb']]. apply H1.
  exists b'. split; auto.
  rewrite Forall_forall in H4. specialize (H4 _ Hb').
  destruct b as [[t s] recs], b' as [[t' s'] recs']; simpl in *. congruence.
Qed.

Lemma wide_lookup (p : bucket -> bool) (s0 : pystr) (bs : list bucket)
  (b : bucket) :
  NoDup (map fst bs) ->
  (forall b', p b' = true -> snd (fst b') = s0) ->
  In b bs -> p b = true ->
  dict_get PyStr.eqb (map wide_of (filter p bs)) (fst (fst b))
  = Some (wide_payload (snd b)).
Proof.
  intros N Hp Hb Pb. apply (In_dict_get PyStr.eqb eqb_eq).
  - apply wide_keys_NoDup with (s0 := s0).
    + apply kind_keys_NoDup, N.
    + apply Forall_forall. intros b' Hb'. apply filter_In in Hb'.
      apply Hp; tauto.
  - change (fst (fst b), wide_payload (snd b)) with (wide_of b).
    apply in_map, filter_In. auto.
Qed.

Lemma is_volume_source (b : bucket) :
  is_volume b = true -> snd (fst b) = py "volume".
Proof. unfold is_volume. apply eqb_eq. Qed.

Lemma is_magic_formula_source (b : bucket) :
  is_magic_formula b = true -> snd (fst b) = py "magic_formula".
Proof.
  unfold is_magic_formula. rewrite andb_true_iff. intros [_ H].
  apply eqb_eq, H.
Qed.

End WideFacts.

(** C3, as the specification states it, fails on the per-ticker buckets:
    the payload written for a bucket of one record is not that record but
    the envelope holding a list of one record. *)
Lemma single_record_not_unwrapped :
  ~ exists RT : PyRuntime,
      exists f,
        written (@group RT (py "json") Fixtures.stamp
                   [Fixtures.scraped "PETR4" "insiders" 2])
        = [(f, PDict (Fixtures.scraped "PETR4" "insiders" 2))].
Proof.
  intros [RT [f H]]. vm_compute in H. discriminate.
Qed.

(** C3, amended: a bucket of a wide source (volume, magic_formula) is
    stored in its wide map under its ticker, as the record itself when the
    bucket has exactly one record and as a wrapper with the ordered list
    under "items" when it has more; a bucket of any other source is written
    as an envelope whose "items" is the ordered list of its records,
    whatever their number. *)
Theorem bucket_payload_shapes {RT : PyRuntime} (ext generated_at : pystr)
  (items : list pydict) (t s : pystr) (recs : list pydict) :
  In ((t, s), recs) (group_by_key items) ->
  let out := group ext generated_at items in
  (if PyStr.eqb s (py "volume") then
     dict_get PyStr.eqb (volume_map out) t = Some (wide_payload recs)
   else if PyStr.eqb s (py "magic_formula") then
     dict_get PyStr.eqb (magic_formula_map out) t = Some (wide_payload recs)
   else
     In (file_name ext t s,
         PDict [ (py "generated_at", PStr generated_at);
                 (py "ticker", PStr t);
                 (py "source", PStr s);
                 (py "items", PList (map PDict recs)) ])
        (written out))
  /\ match recs with
     | [] => False
     | [r] => wide_payload recs = PDict r
     | _ => wide_payload recs = PDict [(py "items", PList (map PDict recs))]
     end.
Proof.
  intros H out. split.
  - assert (Hs : In ((t, s), recs) (sorted_buckets items))
      by (apply sorted_In, H).
    subst out. rewrite group_outputs.
    cbn [written volume_map magic_formula_map].
    destruct (PyStr.eqb s (py "volume")) eqn:Ev.
    + apply (@wide_lookup is_volume (py "volume") (sorted_buckets items)
               ((t, s), recs));
        auto using sorted_buckets_keys, is_volume_source.
    + destruct (PyStr.eqb s (py "magic_formula")) eqn:Em.
      * apply (@wide_lookup is_magic_formula (py "magic_formula")
                 (sorted_buckets items) ((t, s), recs));
          auto using sorted_buckets_keys, is_magic_formula_source.
        unfold is_magic_formula, is_volume; simpl. rewrite Ev, Em; reflexivity.
      * change (In (written_of ext generated_at ((t, s), recs))
                  (map (written_of ext generated_at)
                     (filter is_ordinary (sorted_buckets items)))).
        apply in_map, filter_In. split; auto.
        unfold is_ordinary, is_magic_formula, is_volume; simpl.
        rewrite Ev, Em; reflexivity.
  - destruct (bucket_records _ _ H) as [_ N]. simpl in N.
    destruct recs as [|r [|r' q]]; [congruence | reflexivity | reflexivity].
Qed.

Section PartitionFacts.
Context {RT : PyRuntime}.

Lemma norm_ticker_missing (r : pydict) :
  dict_get PyStr.eqb r (py "ticker") = None -> norm_ticker r = py "UNKNOWN".
Proof.
  intros H. unfold norm_ticker, str_get_or. rewrite H. reflexivity.
Qed.

Lemma norm_source_missing (r : pydict) :
  dict_get PyStr.eqb r (py "source") = None -> norm_source r = py "data".
Proof.
  intros H. unfold norm_source, str_get_or. rewrite H. reflexivity.
Qed.

Lemma record_in_its_bucket (items : list pydict) (r : pydict) :
  In r items ->
  exists recs, In (item_key r, recs) (sorted_buckets items) /\ In r recs.
Proof.
  intros H. destruct (group_by_key_ok items) as [_ Hg _].
  specialize (Hg (item_key r)).
  assert (Hr : In r (with_key (item_key r) items))
    by (apply filter_In; split; [exact H | apply pair_eqb_refl]).
  destruct (with_key (item_key r) items) as [|x l] eqn:E; [destruct Hr|].
  exists (x :: l). split; auto.
  apply sorted_In. apply (dict_get_In pair_eqb pair_eqb_eq), Hg.
Qed.

(** C6: grouping is a partition.  The buckets, concatenated, are a
    permutation of the input, so their sizes add up to the number of
    records; the buckets have distinct keys and each holds exactly the
    records whose normalized (ticker, source) is its key, in input order, so
    a record lies in one bucket only, that of its key; each bucket goes to
    exactly one of the per-ticker files and the two wide maps; and a record
    without a ticker or a source is keyed under "UNKNOWN" or "data". *)
Theorem grouping_is_partition (ext generated_at : pystr)
  (items : list pydict) :
  let bs := sorted_buckets items in
  let out := group ext generated_at items in
  Permutation (flat_map snd bs) items
  /\ List.length (flat_map snd bs) = List.length items
  /\ NoDup (map fst bs)
  /\ Forall (fun b => snd b = with_key (fst b) items /\ snd b <> []) bs
  /\ Forall (fun r => exists recs, In (item_key r, recs) bs /\ In r recs) items
  /\ written out = map (written_of ext generated_at) (filter is_ordinary bs)
  /\ volume_map out = map wide_of (filter is_volume bs)
  /\ magic_formula_map out = map wide_of (filter is_magic_formula bs)
  /\ List.length (written out) + List.length (volume_map out)
     + List.length (magic_formula_map out) = List.length bs
  /\ (forall r, dict_get PyStr.eqb r (py "ticker") = None ->
        norm_ticker r = py "UNKNOWN")
  /\ (forall r, dict_get PyStr.eqb r (py "source") = None ->
        norm_source r = py "data").
Proof.
  intros bs out.
  assert (P : Permutation (flat_map snd bs) items).
  { subst bs. rewrite (Permutation_flat_map snd (sorted_buckets_perm items)).
    apply (bk_perm (group_by_key_ok items)). }
  split; [exact P|]. split; [apply Permutation_length, P|].
  split; [apply sorted_buckets_keys|].
  split.
  { apply Forall_forall. intros b Hb. apply bucket_records.
    apply sorted_In in Hb. exact Hb. }
  split.
  { apply Forall_forall. intros r Hr. apply record_in_its_bucket, Hr. }
  subst out. rewrite group_outputs. cbn [written volume_map magic_formula_map].
  repeat (split; [reflexivity|]).
  split; [|split; [apply norm_ticker_missing | apply norm_source_missing]].
  rewrite !length_map. clear P. subst bs.
  induction (sorted_buckets items) as [|b l IH]; simpl; auto.
  destruct (kinds_exclusive b) as [[-> [-> ->]]|[[-> [-> ->]]|[-> [-> ->]]]];
    simpl; lia.
Qed.

End PartitionFacts.

Section DiversionFacts.
Context {RT : PyRuntime}.

Lemma bucket_member_key (items : list pydict) (b : bucket) (r : pydict) :
  In b (sorted_buckets items) -> In r (snd b) -> fst b = item_key r.
Proof.
  intros Hb Hr. apply sorted_In in Hb.
  destruct (bucket_records _ _ Hb) as [E _]. rewrite E in Hr.
  apply filter_In in Hr. destruct Hr as [_ Hr].
  apply pair_eqb_eq in Hr. auto.
Qed.

(** C7: a record whose normalized source is "volume" or "magic_formula"
    is in none of the per-ticker files, which only hold buckets of other
    sources; it is in the wide map of its source, under its normalized
    ticker; and every bucket that holds it has its own key. *)
Theorem wide_sources_diverted (ext generated_at : pystr)
  (items : list pydict) (r : pydict) :
  In r items ->
  norm_source r = py "volume" \/ norm_source r = py "magic_formula" ->
  let out := group ext generated_at items in
  Forall (fun w => exists t s recs,
            w = (file_name ext t s, ticker_payload generated_at t s recs)
            /\ s <> py "volume" /\ s <> py "magic_formula"
            /\ ~ In r recs)
    (written out)
  /\ (exists recs,
        In r recs
        /\ dict_get PyStr.eqb
             (if PyStr.eqb (norm_source r) (py "volume")
              then volume_map out else magic_formula_map out)
             (norm_ticker r)
           = Some (wide_payload recs))
  /\ (forall b, In b (sorted_buckets items) -> In r (snd b) ->
        fst b = item_key r).
Proof.
  intros Hr Hs out. subst out. rewrite group_outputs.
  cbn [written volume_map magic_formula_map].
  split; [|split].
  - apply Forall_forall. intros w Hw.
    apply in_map_iff in Hw. destruct Hw as [b [<- Hb]].
    apply filter_In in Hb. destruct Hb as [Hb Ob].
    destruct b as [[t s] recs].
    exists t, s, recs. split; [reflexivity|].
    unfold is_ordinary, is_magic_formula, is_volume in Ob. simpl in Ob.
    destruct (PyStr.eqb s (py "volume")) eqn:Ev; [discriminate|].
    destruct (PyStr.eqb s (py "magic_formula")) eqn:Em; [discriminate|].
    apply eqb_neq in Ev, Em. repeat split; auto.
    intros Hin. pose proof (bucket_member_key _ _ _ Hb Hin) as E.
    unfold item_key in E. simpl in E. inversion E; subst.
    destruct Hs; contradiction.
  - destruct (record_in_its_bucket _ _ Hr) as [recs [Hb Hin]].
    exists recs. split; auto.
    destruct Hs as [Hs|Hs]; rewrite Hs; cbn [PyStr.eqb].
    + change (PyStr.eqb (py "volume") (py "volume")) with true. cbv iota.
      apply (@wide_lookup is_volume (py "volume") (sorted_buckets items)
               (item_key r, recs));
        auto using sorted_buckets_keys, is_volume_source.
      unfold is_volume, item_key; simpl. rewrite Hs. reflexivity.
    + change (PyStr.eqb (py "magic_formula") (py "volume")) with false.
      cbv iota.
      apply (@wide_lookup is_magic_formula (py "magic_formula")
               (sorted_buckets items) (item_key r, recs));
        auto using sorted_buckets_keys, is_magic_formula_source.
      unfold is_magic_formula, is_volume, item_key; simpl. rewrite Hs.
      reflexivity.
  - intros b. apply bucket_member_key.
Qed.

End DiversionFacts.

(** ** Files that are passed over *)

Lemma name_ltb_asym (p q : file) :
  PyStr.ltb (name p) (name q) = true -> PyStr.ltb (name q) (name p) = false.
Proof. apply ltb_asym. Qed.

Lemma name_leb_trans (p q r : file) :
  PyStr.ltb (name q) (name p) = false -> PyStr.ltb (name r) (name q) = false ->
  PyStr.ltb (name r) (name p) = false.
Proof. apply leb_trans. Qed.

Section SkipFacts.
Context {RT : PyRuntime}.

Lemma scan_file_passed_over (st : maps) (p : file) :
  passed_over p = true -> scan_file st p = Ok st.
Proof.
  unfold passed_over, scan_file.
  destruct (loaded p) as [[| | | | | |payload]|]; try discriminate; auto.
  destruct (dict_get PyStr.eqb payload (py "items")) as [[| | | | |l|]|]; auto.
  intros ->. reflexivity.
Qed.

Lemma scan_files_drop (ps : list file) (st : maps) :
  scan_files st ps
  = scan_files st (filter (fun p => negb (passed_over p)) ps).
Proof.
  revert st; induction ps as [|p r IH]; intros st; simpl; auto.
  destruct (passed_over p) eqn:E; simpl.
  - rewrite (scan_file_passed_over _ _ E). apply IH.
  - destruct (scan_file st p); auto.
Qed.

(** A file that cannot be read or parsed, or an object with no usable
    ticker or whose items are not a list, changes nothing: the result is
    that of the directory without it. *)
Lemma build_sharks_skips (l1 l2 : list file) (p : file) :
  passed_over p = true ->
  build_sharks (l1 ++ p :: l2) = build_sharks (l1 ++ l2).
Proof.
  intros H. unfold build_sharks.
  replace (scan_files empty_maps (shareholder_files (l1 ++ p :: l2)))
    with (scan_files empty_maps (shareholder_files (l1 ++ l2))); auto.
  rewrite (scan_files_drop (shareholder_files (l1 ++ l2))).
  rewrite (scan_files_drop (shareholder_files (l1 ++ p :: l2))).
  unfold shareholder_files.
  rewrite !(filter_sorted _ name_ltb_asym name_leb_trans).
  rewrite !filter_app. simpl.
  destruct (glob_match (name p)); simpl; rewrite ?H; reflexivity.
Qed.

End SkipFacts.

(** ** The theorems at the fixtures *)

(** C5 at the ordering example: the two sharks are in order. *)
Lemma build_sharks_adjacent_order_witness :
  (quantity acme_shark > quantity beta_shark)%Z
  \/ (quantity acme_shark = quantity beta_shark
      /\ PyStr.leb (shark_name acme_shark) (shark_name beta_shark) = true).
Proof.
  apply (@build_sharks_adjacent_order ascii_runtime acme_files
           [acme_shark; beta_shark]
           0);
    vm_compute; reflexivity.
Defined.

(** C4 at the ordering example: the key "acme" has its shark. *)
Lemma build_sharks_shark_per_key_witness :
  exists s,
    In s [acme_shark; beta_shark]
    /\ shark_for (@seen_rows ascii_runtime acme_files) (py "acme") s.
Proof.
  apply (@build_sharks_shark_per_key ascii_runtime acme_files).
  - vm_compute; reflexivity.
  - exists (py "A"), (py "ACME Corp"). vm_compute. left; reflexivity.
Defined.

(** C3 at the mixed records: the two volume records of PETR4 are stored
    wrapped under "items". *)
Lemma bucket_payload_shapes_witness :
  dict_get PyStr.eqb
    (volume_map (@group ascii_runtime (py "json") stamp mixed_records))
    (py "PETR4")
  = Some (PDict [(py "items",
                  PList [ PDict (scraped "PETR4" "volume" 1);
                          PDict (scraped "petr4" "Volume" 4) ])]).
Proof.
  refine (proj1 (@bucket_payload_shapes ascii_runtime (py "json") stamp
                   mixed_records (py "PETR4") (py "volume")
                   [scraped "PETR4" "volume" 1; scraped "petr4" "Volume" 4]
                   _)).
  vm_compute. left; reflexivity.
Defined.

(** C7 at the mixed records: the volume record of VALE3 is in the volume
    map under VALE3. *)
Lemma wide_sources_diverted_witness :
  exists recs,
    In (scraped "VALE3" "volume" 3) recs
    /\ dict_get PyStr.eqb
         (volume_map (@group ascii_runtime (py "json") stamp mixed_records))
         (py "VALE3")
       = Some (wide_payload recs).
Proof.
  refine (proj1 (proj2 (@wide_sources_diverted ascii_runtime (py "json") stamp
                          mixed_records (scraped "VALE3" "volume" 3) _ _))).
  - vm_compute. right; right; left; reflexivity.
  - left. vm_compute; reflexivity.
Defined.

(** * Further properties of the code *)

(** ** Lists of distinct strings in order of first occurrence *)

Lemma filter_filter_weaker (p q : pystr -> bool) (l : list pystr) :
  (forall y, p y = true -> q y = true) ->
  filter p (filter q l) = filter p l.
Proof.
  intros H. induction l as [|x r IH]; simpl; auto.
  destruct (q x) eqn:Q; simpl.
  - rewrite IH. reflexivity.
  - destruct (p x) eqn:P; auto. rewrite (H _ P) in Q. discriminate.
Qed.

Lemma filter_both (p q : pystr -> bool) (l : list pystr) :
  filter (fun y => p y && q y) l = filter p (filter q l).
Proof.
  induction l as [|x r IH]; simpl; auto.
  destruct (q x); simpl; rewrite ?andb_true_r, ?andb_false_r;
    destruct (p x); simpl; rewrite IH; reflexivity.
Qed.

Lemma unseen_set_add (seen : list pystr) (v y : pystr) :
  unseen (set_add seen v) y = unseen seen y && negb (PyStr.eqb y v).
Proof.
  unfold unseen, set_add.
  destruct (existsb (PyStr.eqb v) seen) eqn:E.
  - destruct (PyStr.eqb y v) eqn:Ey; simpl; rewrite ?andb_true_r; auto.
    apply eqb_eq in Ey; subst. rewrite E. reflexivity.
  - rewrite existsb_app. simpl. rewrite orb_false_r, negb_orb. reflexivity.
Qed.

(** The loop with a set of seen strings keeps first occurrences. *)
Lemma push_new_fold (vs : list pystr) (st : list pystr * list pystr) :
  snd (fold_left push_new vs st)
  = snd st ++ filter (unseen (fst st)) (first_occurrences vs).
Proof.
  revert st; induction vs as [|v r IH]; intros st; simpl.
  - rewrite app_nil_r. reflexivity.
  - rewrite IH. unfold push_new.
    assert (U : unseen (fst st) v = negb (existsb (PyStr.eqb v) (fst st)))
      by reflexivity.
    destruct (existsb (PyStr.eqb v) (fst st)) eqn:E; rewrite U; simpl.
    + rewrite filter_filter_weaker; auto.
      intros y Hy. destruct (PyStr.eqb y v) eqn:Ey; auto.
      apply eqb_eq in Ey; subst. unfold unseen in Hy. rewrite E in Hy.
      discriminate.
    + rewrite <- app_assoc. simpl. f_equal. f_equal.
      rewrite <- filter_both. apply filter_ext. intros y.
      apply unseen_set_add.
Qed.

Lemma first_occurrences_In (l : list pystr) (x : pystr) :
  In x (first_occurrences l) <-> In x l.
Proof.
  induction l as [|a r IH]; simpl; [tauto|].
  rewrite filter_In, IH. split.
  - intros [H|[H _]]; auto.
  - intros [H|H]; auto.
    destruct (PyStr.eqb x a) eqn:E.
    + apply eqb_eq in E; auto.
    + right; auto.
Qed.

Lemma first_occurrences_NoDup (l : list pystr) : NoDup (first_occurrences l).
Proof.
  induction l as [|a r IH]; simpl; constructor.
  - rewrite filter_In. intros [_ H]. rewrite eqb_refl in H. discriminate.
  - apply NoDup_filter, IH.
Qed.

(** ** _get_tickers *)

Section TickersFacts.
Context {RT : PyRuntime}.

Lemma tickers_step_fold (l : list pyval) (st : list pystr * list pystr) :
  fold_left tickers_step l st
  = fold_left push_new
      (filter (fun v => negb (is_empty v)) (map ticker_of l)) st.
Proof.
  revert st; induction l as [|t r IH]; intros st; simpl; auto.
  unfold tickers_step at 2.
  destruct (is_empty (ticker_of t)); simpl; apply IH.
Qed.

(** X1: [_get_tickers] returns the configured entries once normalized
    (stripped, upper case), without the empty ones, each at its first
    occurrence and in that order; the list has no repetition and no empty
    string; a value that is not a list gives no ticker. *)
Theorem get_tickers_first_occurrences (config site_cfg : pydict) :
  match configured_tickers config site_cfg with
  | PList l =>
      _get_tickers config site_cfg
      = first_occurrences
          (filter (fun v => negb (is_empty v)) (map ticker_of l))
      /\ (forall v, In v (_get_tickers config site_cfg)
            <-> v <> [] /\ exists t, In t l /\ ticker_of t = v)
  | _ => _get_tickers config site_cfg = []
  end
  /\ NoDup (_get_tickers config site_cfg)
  /\ Forall (fun v => v <> []) (_get_tickers config site_cfg).
Proof.
  unfold _get_tickers.
  destruct (configured_tickers config site_cfg) as [| | | | |l|];
    try (split; [reflexivity | split; constructor]).
  rewrite tickers_step_fold, push_new_fold. simpl.
  rewrite (filter_ext (unseen []) (fun _ => true)) by reflexivity.
  rewrite filter_true.
  set (vs := filter (fun v => negb (is_empty v)) (map ticker_of l)).
  assert (M : forall v, In v (first_occurrences vs)
                <-> v <> [] /\ exists t, In t l /\ ticker_of t = v).
  { intros v. rewrite first_occurrences_In. unfold vs.
    rewrite filter_In, in_map_iff. split.
    - intros [[t [E Ht]] N]. split; [|exists t; auto].
      destruct v; [discriminate | discriminate].
    - intros [N [t [Ht E]]]. split; [exists t; auto|].
      destruct v; [congruence | reflexivity]. }
  split; [split; [reflexivity | exact M]|].
  split; [apply first_occurrences_NoDup|].
  apply Forall_forall. intros v Hv. apply M in Hv. tauto.
Qed.

End TickersFacts.

(** ** The Markdown tables *)

Lemma str_replace_single (c : codepoint) (new s : pystr) :
  str_replace [c] new s
  = flat_map (fun x => if N.eqb c x then new else [x]) s.
Proof.
  unfold str_replace. induction s as [|x r IH]; simpl; auto.
  rewrite IH. destruct (N.eqb c x); reflexivity.
Qed.

Lemma str_replace_aux_chars (old new : pystr) (s : pystr) :
  forall skip x,
    In x (str_replace_aux old new skip s) -> In x new \/ In x s.
Proof.
  induction s as [|c r IH]; intros skip x; simpl; [tauto|].
  destruct skip as [|k].
  - destruct (starts_with old (c :: r)).
    + rewrite in_app_iff. intros [H|H]; auto.
      destruct (IH _ _ H); auto.
    + intros [H|H]; auto. destruct (IH _ _ H); auto.
  - intros H. destruct (IH _ _ H); auto.
Qed.

Lemma flat_map_notin (c : codepoint) (f : codepoint -> pystr) (s : pystr) :
  (forall x, In x s -> ~ In c (f x)) -> ~ In c (flat_map f s).
Proof.
  intros H Hin. apply in_flat_map in Hin. destruct Hin as [x [Hx Hc]].
  exact (H x Hx Hc).
Qed.

Lemma pipes_escaped_any (p q : codepoint) (l : pystr) :
  p <> BACKSLASH -> pipes_escaped p l -> pipes_escaped q l.
Proof.
  destruct l as [|c r]; simpl; auto.
  intros N [H1 H2]. split; auto. intros E. elim N. auto.
Qed.

Lemma pipes_escaped_split (p : codepoint) (l pre post : pystr) :
  pipes_escaped p l -> l = pre ++ PIPE :: post ->
  (pre = [] /\ p = BACKSLASH) \/ exists pre', pre = pre' ++ [BACKSLASH].
Proof.
  revert p l. induction pre as [|a pre IH]; intros p l H E; subst l.
  - left. simpl in H. split; [reflexivity | apply H; reflexivity].
  - right. simpl in H. destruct H as [_ H].
    destruct (IH a _ H eq_refl) as [[-> ->]|[pre' ->]].
    + exists []. reflexivity.
    + exists (a :: pre'). reflexivity.
Qed.

Lemma escape_pipes_ok (s : pystr) (p : codepoint) :
  pipes_escaped p
    (flat_map (fun x => if N.eqb PIPE x then [BACKSLASH; PIPE] else [x]) s).
Proof.
  revert p; induction s as [|c r IH]; intros p; [exact I|].
  cbn [flat_map].
  destruct (N.eqb_spec PIPE c) as [E|E]; cbn [app pipes_escaped].
  - split; [discriminate|]. split; [reflexivity | apply IH].
  - split; [congruence | apply IH].
Qed.

Lemma break_lines_keeps_pipes (s : pystr) (p : codepoint) :
  pipes_escaped p s ->
  pipes_escaped p
    (flat_map (fun x => if N.eqb LF x then py "<br>" else [x]) s).
Proof.
  revert p; induction s as [|c r IH]; intros p; [intros _; exact I|].
  cbn [flat_map pipes_escaped].
  intros [H1 H2]. destruct (N.eqb_spec LF c) as [E|E].
  - subst c. change (py "<br>") with [60; 98; 114; 62]%N.
    cbn [app pipes_escaped].
    repeat (split; [discriminate|]).
    apply IH. apply (pipes_escaped_any (p := LF)); [discriminate | exact H2].
  - cbn [app pipes_escaped]. split; auto.
Qed.

Section MarkdownFacts.
Context {RT : PyRuntime}.

Lemma md_escape_unfold (value : pyval) :
  exists s,
    _md_escape value
    = flat_map (fun x => if N.eqb LF x then py "<br>" else [x])
        (flat_map (fun x => if N.eqb PIPE x then [BACKSLASH; PIPE] else [x])
           (flat_map (fun x => if N.eqb CR x then [LF] else [x]) s)).
Proof.
  unfold _md_escape. rewrite !str_replace_single. eauto.
Qed.

Lemma md_escape_clean (value : pyval) :
  ~ In LF (_md_escape value) /\ ~ In CR (_md_escape value)
  /\ forall p, pipes_escaped p (_md_escape value).
Proof.
  destruct (md_escape_unfold value) as [s ->].
  set (s2 := flat_map (fun x => if N.eqb CR x then [LF] else [x]) s).
  set (s3 := flat_map (fun x => if N.eqb PIPE x then [BACKSLASH; PIPE]
                                else [x]) s2).
  assert (C2 : ~ In CR s2).
  { apply flat_map_notin. intros x _.
    destruct (N.eqb_spec CR x) as [E|E]; simpl;
      intuition (discriminate || congruence). }
  assert (C3 : ~ In CR s3).
  { apply flat_map_notin. intros x Hx.
    destruct (N.eqb_spec PIPE x) as [E|E]; simpl;
      intuition (discriminate || congruence). }
  split; [|split].
  - apply flat_map_notin. intros x _.
    destruct (N.eqb_spec LF x) as [E|E]; simpl;
      intuition (discriminate || congruence).
  - apply flat_map_notin. intros x Hx.
    destruct (N.eqb_spec LF x) as [E|E]; simpl;
      intuition (discriminate || congruence).
  - intros p. apply break_lines_keeps_pipes, escape_pipes_ok.
Qed.

(** X2: whatever the value, the text [_md_escape] returns has no line feed
    and no carriage return, and each of its pipes comes right after a
    backslash. *)
Theorem md_escape_single_line (value : pyval) :
  ~ In LF (_md_escape value)
  /\ ~ In CR (_md_escape value)
  /\ (forall pre post,
        _md_escape value = pre ++ PIPE :: post ->
        exists pre', pre = pre' ++ [BACKSLASH]).
Proof.
  destruct (md_escape_clean value) as [H1 [H2 H3]].
  split; [exact H1 | split; [exact H2|]].
  intros pre post E.
  destruct (@pipes_escaped_split 0%N _ _ _ (H3 0%N) E) as [[_ H]|H];
    [discriminate | exact H].
Qed.

End MarkdownFacts.

Lemma table_columns_first_occurrences (rows : list pyval) :
  table_columns rows = first_occurrences (flat_map row_keys rows).
Proof.
  unfold table_columns.
  assert (G : forall st,
             fold_left
               (fun st r =>
                  match r with
                  | PDict d => fold_left push_new (dict_keys d) st
                  | _ => st
                  end) rows st
             = fold_left push_new (flat_map row_keys rows) st).
  { induction rows as [|r q IH]; intros st; simpl; auto.
    rewrite fold_left_app, IH. destruct r; reflexivity. }
  rewrite G, push_new_fold. simpl.
  rewrite (filter_ext (unseen []) (fun _ => true)) by reflexivity.
  apply filter_true.
Qed.

Lemma count_lf_app (a b : pystr) : count_lf (a ++ b) = count_lf a + count_lf b.
Proof. apply count_occ_app. Qed.

Lemma count_lf_none (s : pystr) : ~ In LF s -> count_lf s = 0.
Proof. apply count_occ_not_In. Qed.

Lemma str_join_no_lf (sep : pystr) (cells : list pystr) :
  ~ In LF sep -> Forall (fun c => ~ In LF c) cells ->
  ~ In LF (str_join sep cells).
Proof.
  intros Hs. induction 1 as [|c r Hc Hr IH]; simpl; auto.
  destruct r as [|c' r']; auto.
  rewrite !in_app_iff. tauto.
Qed.

Section TableFacts.
Context {RT : PyRuntime}.

Lemma table_line_one_lf (cells : list pystr) :
  Forall (fun c => ~ In LF c) cells -> count_lf (table_line cells) = 1.
Proof.
  intros H. unfold table_line. rewrite !count_lf_app.
  rewrite (@count_lf_none (str_join (py " | ") cells)).
  - reflexivity.
  - apply str_join_no_lf; auto. vm_compute. intuition discriminate.
Qed.

Lemma escaped_cells_no_lf (A : Type) (f : A -> pyval) (l : list A) :
  Forall (fun c => ~ In LF c) (map (fun x => _md_escape (f x)) l).
Proof.
  apply Forall_forall. intros c Hc. apply in_map_iff in Hc.
  destruct Hc as [x [<- _]]. apply md_escape_clean.
Qed.

Lemma dashes_no_lf (n : nat) :
  Forall (fun c => ~ In LF c) (repeat (py "---") n).
Proof.
  apply Forall_forall. intros c Hc. apply repeat_spec in Hc. subst c.
  vm_compute. intuition discriminate.
Qed.

Lemma body_lines_count (cols : list pystr) (rows : list pyval) :
  count_lf
    (List.concat
       (flat_map
          (fun r =>
             match r with
             | PDict d =>
                 [table_line
                    (map (fun c =>
                            _md_escape
                              (opt_default PNone (dict_get PyStr.eqb d c)))
                       cols)]
             | _ => []
             end) rows))
  = List.length (filter is_dict rows).
Proof.
  induction rows as [|r q IH]; [reflexivity|].
  cbn [flat_map].
  destruct r; cbn [app List.concat filter is_dict List.length]; auto.
  rewrite count_lf_app, IH, table_line_one_lf; auto.
  apply (escaped_cells_no_lf
           (fun c => opt_default PNone (dict_get PyStr.eqb d c))).
Qed.

(** X3: a table has one line for its header, one for the separator and
    one for each row that is a dictionary, whatever the cells hold; rows
    that are not dictionaries give no line, and without any column the
    table is the one-line placeholder. *)
Theorem md_table_line_per_row (rows : list pyval) :
  match table_columns rows with
  | [] => _md_table rows = no_data
  | _ => count_lf (_md_table rows) = 2 + List.length (filter is_dict rows)
  end.
Proof.
  unfold _md_table.
  destruct rows as [|r q].
  - reflexivity.
  - destruct (table_columns (r :: q)) as [|c cols] eqn:E; [reflexivity|].
    rewrite !count_lf_app, body_lines_count.
    rewrite table_line_one_lf
      by apply (escaped_cells_no_lf (fun c => PStr c)).
    rewrite table_line_one_lf by apply dashes_no_lf.
    reflexivity.
Qed.

(** X4: the columns of a table are the keys of its dictionary rows, each
    once, in the order in which they first occur. *)
Theorem md_table_columns (rows : list pyval) :
  table_columns rows = first_occurrences (flat_map row_keys rows)
  /\ NoDup (table_columns rows)
  /\ (forall c, In c (table_columns rows)
        <-> exists d, In (PDict d) rows /\ In c (dict_keys d)).
Proof.
  rewrite table_columns_first_occurrences.
  split; [reflexivity|]. split; [apply first_occurrences_NoDup|].
  intros c. rewrite first_occurrences_In, in_flat_map. split.
  - intros [r [Hr Hc]]. destruct r; simpl in Hc; try contradiction.
    exists d. auto.
  - intros [d [Hd Hc]]. exists (PDict d). auto.
Qed.

End TableFacts.

(** ** More on the sharks *)

Lemma strict_sorted_unique (A : Type) (R : A -> A -> Prop) :
  (forall x y, R x y -> R y x -> False) ->
  forall l1 l2,
    StronglySorted R l1 -> StronglySorted R l2 ->
    (forall x, In x l1 <-> In x l2) -> l1 = l2.
Proof.
  intros Asym l1. induction l1 as [|a r1 IH]; intros l2 S1 S2 M.
  - destruct l2 as [|b r2]; auto. exfalso. apply (M b). left; reflexivity.
  - destruct l2 as [|b r2]; [exfalso; apply (M a); left; reflexivity|].
    inversion S1 as [|? ? Sr1 F1]; inversion S2 as [|? ? Sr2 F2]; subst.
    rewrite Forall_forall in F1, F2.
    assert (E : a = b).
    { destruct (proj1 (M a) (or_introl eq_refl)) as [E|Ha]; auto.
      destruct (proj2 (M b) (or_introl eq_refl)) as [E|Hb]; auto.
      exfalso. exact (Asym _ _ (F1 _ Hb) (F2 _ Ha)). }
    subst b. f_equal. apply IH; auto.
    intros x. split; intros Hx.
    + destruct (proj1 (M x) (or_intror Hx)) as [E|H]; auto.
      subst x. exfalso. exact (Asym _ _ (F1 _ Hx) (F1 _ Hx)).
    + destruct (proj2 (M x) (or_intror Hx)) as [E|H]; auto.
      subst x. exfalso. exact (Asym _ _ (F2 _ Hx) (F2 _ Hx)).
Qed.

Lemma strict_sorted_NoDup (A : Type) (R : A -> A -> Prop) (l : list A) :
  (forall x, ~ R x x) -> StronglySorted R l -> NoDup l.
Proof.
  intros Irr. induction 1 as [|a r Sr IH F]; constructor; auto.
  rewrite Forall_forall in F. intros H. exact (Irr _ (F _ H)).
Qed.

Lemma ltb_strict_asym (x y : pystr) :
  PyStr.ltb x y = true -> PyStr.ltb y x = true -> False.
Proof. intros H1 H2. rewrite (ltb_asym _ _ H1) in H2. discriminate. Qed.

Lemma filter_length_perm (A : Type) (f : A -> bool) (l l' : list A) :
  Permutation l l' ->
  List.length (filter f l) = List.length (filter f l').
Proof.
  induction 1 as [|x l l' P IH|x y l|l l' l'' P1 IH1 P2 IH2]; simpl; auto.
  - destruct (f x); simpl; auto.
  - destruct (f x), (f y); reflexivity.
  - congruence.
Qed.

Lemma occurrences_row (rows : list row) (k n : pystr) :
  0 < occurrences rows k n -> exists t, In (t, (n, k)) rows.
Proof.
  unfold occurrences. intros H.
  destruct (filter _ rows) as [|[t [n' k']] q] eqn:E; [simpl in H; lia|].
  assert (G : In (t, (n', k')) (filter
               (fun r => PyStr.eqb (row_key r) k && PyStr.eqb (row_name r) n)
               rows)) by (rewrite E; left; reflexivity).
  apply filter_In in G. destruct G as [G1 G2].
  unfold row_key, row_name in G2. simpl in G2.
  apply andb_true_iff in G2. destruct G2 as [Ek En].
  apply eqb_eq in Ek, En. subst. exists t. exact G1.
Qed.

Section MoreSharkFacts.
Context {RT : PyRuntime}.

Lemma item_rows_wf (l : list pyval) (n k : pystr) :
  In (n, k) (item_rows l) ->
  n <> [] /\ k <> [] /\ k = _normalize_shark_name n.
Proof.
  induction l as [|item r IH]; simpl; [tauto|].
  destruct (item_row item) as [[n' k']|] eqn:E; auto.
  intros [H|H]; auto. inversion H; subst; clear H.
  unfold item_row in E. destruct item; try discriminate.
  destruct (is_empty (strip (str_get_or d "acionista" ""))) eqn:E1;
    [discriminate|].
  destruct (is_empty (_normalize_shark_name _)) eqn:E2; [discriminate|].
  inversion E; subst.
  repeat split; auto; intros C; rewrite C in *; discriminate.
Qed.

(** A row that is seen has a ticker, a raw name and a key, and its key is
    the canonical key of its raw name. *)
Lemma seen_rows_wf (out_dir : list file) (t n k : pystr) :
  In (t, (n, k)) (seen_rows out_dir) ->
  t <> [] /\ n <> [] /\ k <> [] /\ k = _normalize_shark_name n.
Proof.
  unfold seen_rows. rewrite in_flat_map. intros [p [_ H]].
  unfold file_rows in H.
  destruct (loaded p) as [[| | | | | |payload]|]; try contradiction.
  destruct (dict_get PyStr.eqb payload (py "items")) as [[| | | | |l|]|];
    try contradiction.
  destruct (is_empty (artifact_ticker (name p) payload)) eqn:E;
    [contradiction|].
  apply in_map_iff in H. destruct H as [[n' k'] [H1 H2]].
  inversion H1; subst. split.
  - intros C. rewrite C in E. discriminate.
  - apply (item_rows_wf _ _ _ H2).
Qed.

Lemma shark_for_perm (rows rows' : list row) (k : pystr) (s : shark) :
  Permutation rows rows' -> shark_for rows k s -> shark_for rows' k s.
Proof.
  intros P [H1 [H2 [H3 [H4 H5]]]].
  assert (O : forall n, occurrences rows' k n = occurrences rows k n).
  { intros n. unfold occurrences. symmetry. apply filter_length_perm, P. }
  unfold shark_for. rewrite !O. repeat split; auto.
  - intros Ht. destruct (proj1 (H2 t) Ht) as [n Hn]. exists n.
    eapply Permutation_in; eauto.
  - intros [n Hn]. apply H2. exists n.
    eapply Permutation_in; [symmetry|]; eauto.
  - intros n. rewrite !O. apply H5.
Qed.

Lemma shark_for_unique (rows : list row) (k : pystr) (s s' : shark) :
  shark_for rows k s -> shark_for rows k s' -> s = s'.
Proof.
  intros [H1 [H2 [H3 [H4 H5]]]] [H1' [H2' [H3' [H4' H5']]]].
  assert (Ei : items s = items s').
  { apply (strict_sorted_unique ltb_strict_asym); auto.
    intros t. rewrite H2, H2'. tauto. }
  assert (En : shark_name s = shark_name s').
  { destruct (H5 _ H4') as [L|[E L]]; destruct (H5' _ H4) as [L'|[E' L']];
      try lia.
    unfold PyStr.leb in L, L'. apply negb_true_iff in L, L'.
    apply ltb_total; assumption. }
  assert (Eq : quantity s = quantity s') by congruence.
  destruct s, s'; simpl in *. congruence.
Qed.

(** The sharks of the result are exactly the sharks of the keys seen. *)
Lemma build_sharks_members (out_dir : list file) (sharks : list shark) :
  build_sharks out_dir = Ok sharks ->
  forall s, In s sharks
    <-> exists k, (exists t, appears_in (seen_rows out_dir) k t)
                  /\ shark_for (seen_rows out_dir) k s.
Proof.
  intros H s. split; [intros Hs; eapply build_sharks_only_keys; eauto|].
  intros [k [[t Ht] Hs]].
  revert H. unfold build_sharks, seen_rows in *.
  destruct (scan_files empty_maps (shareholder_files out_dir)) as [st|e] eqn:E;
    [|discriminate].
  intros H; inversion H; subst; clear H.
  pose proof (scan_files_ok _ E) as OK.
  destruct (dict_get PyStr.eqb (accionistas_map st) k) as [ts|] eqn:G.
  - rewrite (shark_for_unique Hs (@make_shark_for _ _ _ _ OK G)).
    apply sorted_In, in_map. apply (dict_get_In PyStr.eqb eqb_eq), G.
  - exfalso. exact (ok_absent OK G Ht).
Qed.

Lemma shark_for_key (out_dir : list file) (k : pystr) (s : shark) :
  shark_for (seen_rows out_dir) k s ->
  _normalize_shark_name (shark_name s) = k.
Proof.
  intros [_ [_ [_ [H _]]]]. destruct (occurrences_row _ _ _ H) as [t Ht].
  destruct (seen_rows_wf _ _ _ _ Ht) as [_ [_ [_ E]]]. auto.
Qed.

Lemma build_sharks_names_distinct (out_dir : list file)
  (sharks : list shark) :
  build_sharks out_dir = Ok sharks -> NoDup (map shark_name sharks).
Proof.
  intros H. pose proof (build_sharks_members _ H) as M.
  revert H. unfold build_sharks.
  destruct (scan_files empty_maps (shareholder_files out_dir)) as [st|e] eqn:E;
    [|discriminate].
  intros H; inversion H; subst; clear H.
  pose proof (scan_files_ok _ E) as OK.
  eapply Permutation_NoDup;
    [symmetry; apply Permutation_map, sorted_perm|].
  rewrite map_map.
  assert (K : forall e, In e (accionistas_map st) ->
                _normalize_shark_name
                  (shark_name (make_shark (display_name_counts st) e))
                = fst e).
  { intros [k ts] He. change (fst (k, ts)) with k.
    apply (@shark_for_key out_dir k). unfold seen_rows.
    apply make_shark_for; auto.
    apply (In_dict_get PyStr.eqb eqb_eq); [apply (ok_keys OK) | exact He]. }
  pose proof (ok_keys OK) as N. unfold dict_keys in N.
  clear M. induction (accionistas_map st) as [|e r IH]; simpl; constructor.
  - inversion N; subst. intros Hin. apply H1.
    apply in_map_iff in Hin. destruct Hin as [e' [E' He']].
    apply in_map_iff. exists e'. split; auto.
    rewrite <- (K e' (or_intror He')), <- (K e (or_introl eq_refl)).
    rewrite E'. reflexivity.
  - inversion N; subst. apply IH; auto.
    intros e' He'. apply K. right; exact He'.
Qed.

End MoreSharkFacts.

Lemma shark_strictly_before_asym (a b : shark) :
  shark_strictly_before a b -> shark_strictly_before b a -> False.
Proof.
  intros [H|[E H]] [H'|[E' H']]; try lia.
  exact (ltb_strict_asym _ _ H H').
Qed.

Lemma sharks_strict (l : list shark) :
  StronglySorted shark_before l -> NoDup (map shark_name l) ->
  StronglySorted shark_strictly_before l.
Proof.
  induction 1 as [|a r Sr IH F]; intros N; constructor;
    inversion N as [|? ? Na Nr]; subst; auto.
  rewrite Forall_forall in *. intros b Hb.
  destruct (F _ Hb) as [H|[E H]]; [left; exact H | right; split; auto].
  unfold PyStr.leb in H. apply negb_true_iff in H.
  destruct (PyStr.ltb (shark_name a) (shark_name b)) eqn:L; auto.
  exfalso. apply Na. rewrite (ltb_total _ _ L H). apply in_map, Hb.
Qed.

Lemma names_filter_NoDup (keep : file -> bool) (l : list file) :
  NoDup (map name l) -> NoDup (map name (filter keep l)).
Proof.
  intros N. induction l as [|p r IH]; simpl; auto.
  inversion N as [|? ? Np Nr]; subst.
  destruct (keep p); simpl; auto. constructor; auto.
  intros H. apply Np. apply in_map_iff in H. destruct H as [q [E Hq]].
  apply in_map_iff. exists q. split; auto. apply filter_In in Hq. tauto.
Qed.

Lemma files_strict (l : list file) :
  StronglySorted (notafter (fun p q => PyStr.ltb (name p) (name q))) l ->
  NoDup (map name l) ->
  StronglySorted (fun p q => PyStr.ltb (name p) (name q) = true) l.
Proof.
  induction 1 as [|a r Sr IH F]; intros N; constructor;
    inversion N as [|? ? Na Nr]; subst; auto.
  rewrite Forall_forall in *. intros b Hb. pose proof (F _ Hb) as H.
  unfold notafter in H.
  destruct (PyStr.ltb (name a) (name b)) eqn:L; auto.
  exfalso. apply Na. rewrite (ltb_total _ _ L H). apply in_map, Hb.
Qed.

Section SharkOrderFacts.
Context {RT : PyRuntime}.

(** X5: no shark of the result is empty: its quantity is at least 1 and
    is the length of its ticker list, which has no repetition and no empty
    ticker; its name is not empty and has a canonical key. *)
Theorem sharks_are_not_empty (out_dir : list file) (sharks : list shark) :
  build_sharks out_dir = Ok sharks ->
  Forall (fun s =>
            (1 <= quantity s)%Z
            /\ quantity s = Z.of_nat (List.length (items s))
            /\ NoDup (items s)
            /\ Forall (fun t => t <> []) (items s)
            /\ shark_name s <> []
            /\ _normalize_shark_name (shark_name s) <> [])
    sharks.
Proof.
  intros H. apply Forall_forall. intros s Hs.
  apply (build_sharks_members _ H) in Hs.
  destruct Hs as [k [[t Ht] Hk]].
  pose proof (shark_for_key _ Hk) as Ek.
  destruct Hk as [H1 [H2 [H3 [H4 H5]]]].
  assert (Hin : In t (items s)) by (apply H2; exact Ht).
  destruct (occurrences_row _ _ _ H4) as [t' Ht'].
  destruct (seen_rows_wf _ _ _ _ Ht') as [_ [Nn [Nk _]]].
  repeat split; auto.
  - rewrite H3. destruct (items s); [destruct Hin | simpl; lia].
  - apply (strict_sorted_NoDup (R := fun a b => PyStr.ltb a b = true));
      auto.
    intros x Hx. rewrite ltb_irrefl in Hx. discriminate.
  - apply Forall_forall. intros u Hu. apply H2 in Hu.
    destruct Hu as [n Hn]. apply (seen_rows_wf _ _ _ _ Hn).
  - rewrite Ek. exact Nk.
Qed.

(** X6: no two sharks of the result have the same name, so the final
    order is strict: of two sharks, the first has the greater quantity, or
    the same quantity and the smaller name. *)
Theorem sharks_strictly_ordered (out_dir : list file)
  (sharks : list shark) :
  build_sharks out_dir = Ok sharks ->
  NoDup (map shark_name sharks)
  /\ StronglySorted shark_strictly_before sharks.
Proof.
  intros H. pose proof (build_sharks_names_distinct _ H) as N.
  split; auto. apply sharks_strict; auto. apply (build_sharks_sorted _ H).
Qed.

(** X7: the result depends on the rows seen, not on their order: two
    directories whose rows are the same up to a permutation resolve to the
    same list of sharks. *)
Theorem build_sharks_row_order (d1 d2 : list file) (s1 s2 : list shark) :
  Permutation (seen_rows d1) (seen_rows d2) ->
  build_sharks d1 = Ok s1 -> build_sharks d2 = Ok s2 ->
  s1 = s2.
Proof.
  intros P H1 H2.
  apply (strict_sorted_unique shark_strictly_before_asym).
  - apply sharks_strict;
      [apply (build_sharks_sorted _ H1) | apply (build_sharks_names_distinct _ H1)].
  - apply sharks_strict;
      [apply (build_sharks_sorted _ H2) | apply (build_sharks_names_distinct _ H2)].
  - intros s. rewrite (build_sharks_members _ H1), (build_sharks_members _ H2).
    split; intros [k [[t [n Ht]] Hk]]; exists k; split.
    + exists t, n. eapply Permutation_in; eauto.
    + eapply shark_for_perm; eauto.
    + exists t, n. eapply Permutation_in; [symmetry|]; eauto.
    + eapply shark_for_perm; [symmetry|]; eauto.
Qed.

(** X8: the result does not depend on the order in which the directory
    lists its files (their names are distinct). *)
Theorem build_sharks_listing_order (l l' : list file) :
  NoDup (map name l) -> Permutation l l' ->
  build_sharks l = build_sharks l'.
Proof.
  intros N P.
  assert (E : shareholder_files l = shareholder_files l').
  { unfold shareholder_files.
    assert (N' : NoDup (map name l'))
      by (eapply Permutation_NoDup; [apply Permutation_map, P | exact N]).
    apply (strict_sorted_unique
             (R := fun p q => PyStr.ltb (name p) (name q) = true)).
    - intros p q. apply ltb_strict_asym.
    - apply files_strict.
      + apply sorted_ok; [apply name_ltb_asym | apply name_leb_trans].
      + eapply Permutation_NoDup;
          [symmetry; apply Permutation_map, sorted_perm|].
        apply names_filter_NoDup, N.
    - apply files_strict.
      + apply sorted_ok; [apply name_ltb_asym | apply name_leb_trans].
      + eapply Permutation_NoDup;
          [symmetry; apply Permutation_map, sorted_perm|].
        apply names_filter_NoDup, N'.
    - intros p. rewrite !sorted_In, !filter_In.
      split; intros [Hp G]; split; auto.
      + eapply Permutation_in; [exact P | exact Hp].
      + eapply Permutation_in; [symmetry; exact P | exact Hp]. }
  unfold build_sharks. rewrite E. reflexivity.
Qed.

End SharkOrderFacts.

(** ** More on canonical keys *)

Lemma lstrip_map (f : codepoint -> codepoint) (s : pystr) :
  (forall c, is_space (f c) = is_space c) ->
  lstrip (map f s) = map f (lstrip s).
Proof.
  intros H. induction s as [|c r IH]; simpl; auto.
  rewrite H. destruct (is_space c); auto.
Qed.

Lemma strip_map (f : codepoint -> codepoint) (s : pystr) :
  (forall c, is_space (f c) = is_space c) ->
  strip (map f s) = map f (strip s).
Proof.
  intros H. unfold strip, rstrip.
  rewrite lstrip_map, <- map_rev, lstrip_map, map_rev by exact H.
  reflexivity.
Qed.

Lemma ascii_upper_space (c : codepoint) :
  is_space (ascii_upper c) = is_space c.
Proof.
  unfold ascii_upper. destruct (is_lower_az c) eqn:E; auto.
  assert (is_space c = false) by char_fact.
  assert (is_space (c - 32)%N = false) by char_fact.
  congruence.
Qed.

Lemma ascii_lower_space (c : codepoint) :
  is_space (ascii_lower c) = is_space c.
Proof.
  unfold ascii_lower. destruct (is_upper_az c) eqn:E; auto.
  assert (is_space c = false) by char_fact.
  assert (is_space (c + 32)%N = false) by char_fact.
  congruence.
Qed.

Lemma ascii_lower_upper (c : codepoint) :
  ascii_lower (ascii_upper c) = ascii_lower c.
Proof.
  unfold ascii_upper, ascii_lower.
  destruct (is_lower_az c) eqn:E1; auto.
  assert (E2 : is_upper_az c = false) by char_fact.
  assert (E3 : is_upper_az (c - 32)%N = true) by char_fact.
  rewrite E2, E3. unfold is_lower_az in E1. bool_to_prop. lia.
Qed.

Lemma ascii_lower_lower (c : codepoint) :
  ascii_lower (ascii_lower c) = ascii_lower c.
Proof.
  unfold ascii_lower at 2 3.
  destruct (is_upper_az c) eqn:E1; unfold ascii_lower.
  - assert (E2 : is_upper_az (c + 32)%N = false) by char_fact.
    rewrite E2. reflexivity.
  - rewrite E1. reflexivity.
Qed.

Lemma ascii_upper_ascii (c : codepoint) :
  is_ascii c = true -> is_ascii (ascii_upper c) = true.
Proof.
  intros H. unfold ascii_upper. destruct (is_lower_az c) eqn:E; auto.
  char_fact.
Qed.

Lemma ascii_lower_ascii (c : codepoint) :
  is_ascii c = true -> is_ascii (ascii_lower c) = true.
Proof.
  intros H. unfold ascii_lower. destruct (is_upper_az c) eqn:E; auto.
  char_fact.
Qed.

Lemma forallb_map_ascii (f : codepoint -> codepoint) (s : pystr) :
  (forall c, is_ascii c = true -> is_ascii (f c) = true) ->
  forallb is_ascii s = true -> forallb is_ascii (map f s) = true.
Proof.
  intros H. induction s as [|c r IH]; simpl; auto.
  rewrite !andb_true_iff. intros [H1 H2]. auto.
Qed.

Lemma lstrip_ascii (s : pystr) :
  forallb is_ascii s = true -> forallb is_ascii (lstrip s) = true.
Proof.
  induction s as [|c r IH]; simpl; auto.
  rewrite andb_true_iff. intros [H1 H2].
  destruct (is_space c); auto. simpl. rewrite H1, H2. reflexivity.
Qed.

Lemma rev_ascii (s : pystr) :
  forallb is_ascii s = true -> forallb is_ascii (rev s) = true.
Proof.
  rewrite !forallb_forall. intros H c Hc. apply H, in_rev, Hc.
Qed.

Lemma strip_ascii (s : pystr) :
  forallb is_ascii s = true -> forallb is_ascii (strip s) = true.
Proof.
  intros H. unfold strip, rstrip.
  apply rev_ascii, lstrip_ascii, rev_ascii, lstrip_ascii, H.
Qed.

Section CaseFacts.
Context {RT : PyRuntime}.

Lemma upper_ascii (s : pystr) :
  forallb is_ascii s = true -> upper s = map ascii_upper s.
Proof.
  unfold upper. induction s as [|c r IH]; simpl; auto.
  rewrite andb_true_iff. intros [H1 H2].
  unfold upper_cp at 1. rewrite H1, (IH H2). reflexivity.
Qed.

Lemma lower_ascii (s : pystr) :
  forallb is_ascii s = true -> lower s = map ascii_lower s.
Proof. unfold lower. intros ->. reflexivity. Qed.

Lemma lower_strip_upper (s : pystr) :
  forallb is_ascii s = true -> lower (strip (upper s)) = lower (strip s).
Proof.
  intros H. rewrite (upper_ascii _ H), (strip_map _ _ ascii_upper_space).
  pose proof (strip_ascii _ H) as Hs.
  rewrite lower_ascii by (apply forallb_map_ascii; auto using ascii_upper_ascii).
  rewrite lower_ascii by exact Hs.
  rewrite map_map. apply map_ext, ascii_lower_upper.
Qed.

Lemma lower_strip_lower (s : pystr) :
  forallb is_ascii s = true -> lower (strip (lower s)) = lower (strip s).
Proof.
  intros H. rewrite (lower_ascii _ H), (strip_map _ _ ascii_lower_space).
  pose proof (strip_ascii _ H) as Hs.
  rewrite lower_ascii by (apply forallb_map_ascii; auto using ascii_lower_ascii).
  rewrite lower_ascii by exact Hs.
  rewrite map_map. apply map_ext, ascii_lower_lower.
Qed.

(** X9: on ASCII names the canonical key does not see the case: the
    upper-case and the lower-case forms of a name get the key of the
    name. *)
Theorem normalize_ignores_ascii_case (s : pystr) :
  forallb is_ascii s = true ->
  _normalize_shark_name (upper s) = _normalize_shark_name s
  /\ _normalize_shark_name (lower s) = _normalize_shark_name s.
Proof.
  intros H. unfold _normalize_shark_name.
  rewrite (lower_strip_upper _ H), (lower_strip_lower _ H). auto.
Qed.

(** X10: a canonical key is empty, or it is made of tokens of lower-case
    letters and digits joined by single spaces, with no space at either
    end; none of the tokens is a stopword, unless the key is one stopword
    alone. *)
Theorem normalize_key_shape (x : pystr) :
  _normalize_shark_name x = []
  \/ exists toks,
       toks <> [] /\ Forall token_ok toks
       /\ _normalize_shark_name x = join_sp toks
       /\ (Forall (fun t => is_stopword t = false) toks
           \/ exists t, toks = [t] /\ is_stopword t = true).
Proof.
  unfold _normalize_shark_name.
  destruct (is_empty (lower (strip x))); [left; reflexivity|].
  destruct (is_empty _); [left; reflexivity|].
  fold (tokens_of x).
  pose proof (tokens_of_ok x) as H.
  destruct (filter (fun t => negb (is_stopword t)) (tokens_of x))
    as [|f fs] eqn:F.
  - destruct (tokens_of x) as [|t ts]; [left; reflexivity|].
    right. exists [t]. inversion H; subst. simpl in F.
    destruct (is_stopword t) eqn:S; [|discriminate].
    repeat split; auto; [discriminate|]. right. exists t. auto.
  - right. exists (f :: fs).
    assert (G : forall t, In t (f :: fs) ->
                  In t (tokens_of x) /\ negb (is_stopword t) = true)
      by (intros t Ht; rewrite <- F in Ht; apply filter_In in Ht; exact Ht).
    split; [discriminate|]. split; [|split; [reflexivity|left]].
    + apply Forall_forall. intros t Ht. rewrite Forall_forall in H.
      apply H, G, Ht.
    + apply Forall_forall. intros t Ht. apply negb_true_iff, G, Ht.
Qed.

End CaseFacts.

(** ** More on the grouping loop *)

Lemma pair_ltb_asym (a b : pystr * pystr) :
  pair_ltb a b = true -> pair_ltb b a = false.
Proof.
  destruct a as [a1 a2], b as [b1 b2]. unfold pair_ltb; simpl.
  rewrite orb_true_iff, andb_true_iff, orb_false_iff, andb_false_iff.
  intros [H|[E H]].
  - split; [apply ltb_asym, H|]. left. apply eqb_neq. intros ->.
    rewrite ltb_irrefl in H. discriminate.
  - apply eqb_eq in E. subst. rewrite ltb_irrefl. split; auto.
    right. apply ltb_asym, H.
Qed.

Lemma pair_ltb_total (a b : pystr * pystr) :
  pair_ltb a b = false -> pair_ltb b a = false -> a = b.
Proof.
  destruct a as [a1 a2], b as [b1 b2]. unfold pair_ltb; simpl.
  rewrite !orb_false_iff, !andb_false_iff.
  intros [H1 H1'] [H2 H2'].
  pose proof (ltb_total _ _ H1 H2); subst b1.
  rewrite eqb_refl in H1', H2'.
  destruct H1' as [|H1']; [discriminate|].
  destruct H2' as [|H2']; [discriminate|].
  rewrite (ltb_total _ _ H1' H2'). reflexivity.
Qed.

Lemma pair_leb_trans (a b c : pystr * pystr) :
  pair_ltb b a = false -> pair_ltb c b = false -> pair_ltb c a = false.
Proof.
  destruct a as [a1 a2], b as [b1 b2], c as [c1 c2]. unfold pair_ltb; simpl.
  rewrite !orb_false_iff, !andb_false_iff.
  intros [H1 H1'] [H2 H2']. split; [eapply leb_trans; eauto|].
  destruct (PyStr.eqb c1 a1) eqn:E; [right | left; reflexivity].
  apply eqb_eq in E. subst c1.
  pose proof (ltb_total _ _ H1 H2); subst b1.
  rewrite eqb_refl in H1', H2'.
  destruct H1' as [|H1']; [discriminate|].
  destruct H2' as [|H2']; [discriminate|].
  eapply leb_trans; eauto.
Qed.

Lemma buckets_strict (l : list bucket) :
  StronglySorted (notafter (fun a b : bucket => pair_ltb (fst a) (fst b))) l ->
  NoDup (map fst l) ->
  StronglySorted (fun a b : bucket => pair_ltb (fst a) (fst b) = true) l.
Proof.
  induction 1 as [|a r Sr IH F]; intros N; constructor;
    inversion N as [|? ? Na Nr]; subst; auto.
  rewrite Forall_forall in *. intros b Hb. pose proof (F _ Hb) as H.
  unfold notafter in H.
  destruct (pair_ltb (fst a) (fst b)) eqn:L; auto.
  exfalso. apply Na. rewrite (pair_ltb_total _ _ L H). apply in_map, Hb.
Qed.

Lemma kind_keeps_order (R : bucket -> bucket -> Prop) (kind : bucket -> bool)
  (l : list bucket) :
  StronglySorted R l -> StronglySorted R (filter kind l).
Proof.
  induction 1 as [|a r Sr IH F]; simpl; [constructor|].
  destruct (kind a); auto. constructor; auto.
  rewrite Forall_forall in *. intros b Hb. apply F.
  apply filter_In in Hb. tauto.
Qed.

Lemma order_through_map (A B : Type) (R : A -> A -> Prop)
  (S : B -> B -> Prop) (f : A -> B) (l : list A) :
  (forall a b, In a l -> In b l -> R a b -> S (f a) (f b)) ->
  StronglySorted R l -> StronglySorted S (map f l).
Proof.
  intros H Sl. induction Sl as [|a r Sr IH F]; simpl; constructor.
  - apply IH. intros x y Hx Hy. apply H; right; assumption.
  - rewrite Forall_forall in *. intros y Hy.
    apply in_map_iff in Hy. destruct Hy as [b [<- Hb]].
    apply H; [left; reflexivity | right; exact Hb | apply F, Hb].
Qed.

Section OutputOrderFacts.
Context {RT : PyRuntime}.

Lemma sorted_buckets_strict (items : list pydict) :
  StronglySorted (fun a b : bucket => pair_ltb (fst a) (fst b) = true)
    (sorted_buckets items).
Proof.
  apply buckets_strict; [|apply sorted_buckets_keys].
  apply sorted_ok.
  - intros x y. apply pair_ltb_asym.
  - intros x y z. apply pair_leb_trans.
Qed.

Lemma wide_keys_ascending (kind : bucket -> bool) (s0 : pystr)
  (items : list pydict) :
  (forall b, kind b = true -> snd (fst b) = s0) ->
  StronglySorted (fun a b => PyStr.ltb a b = true)
    (dict_keys (map wide_of (filter kind (sorted_buckets items)))).
Proof.
  intros Hk. unfold dict_keys. rewrite map_map.
  apply (order_through_map
           (R := fun a b : bucket => pair_ltb (fst a) (fst b) = true)).
  - intros a b Ha Hb L. apply filter_In in Ha, Hb.
    destruct a as [[ta sa] ra], b as [[tb sb] rb].
    pose proof (Hk _ (proj2 Ha)) as Ea. pose proof (Hk _ (proj2 Hb)) as Eb.
    unfold pair_ltb in L. simpl in *. subst sa sb.
    rewrite ltb_irrefl, andb_false_r, orb_false_r in L. exact L.
  - apply kind_keeps_order, sorted_buckets_strict.
Qed.

(** X11: the outputs come in ascending order: the per-ticker files are
    written in strictly ascending order of the (ticker, source) of their
    payload, and the keys of each wide map are strictly ascending
    tickers. *)
Theorem outputs_ascending (ext generated_at : pystr) (items : list pydict) :
  let out := group ext generated_at items in
  StronglySorted (fun a b => pair_ltb a b = true)
    (map (fun w => payload_key (snd w)) (written out))
  /\ StronglySorted (fun a b => PyStr.ltb a b = true)
       (dict_keys (volume_map out))
  /\ StronglySorted (fun a b => PyStr.ltb a b = true)
       (dict_keys (magic_formula_map out)).
Proof.
  intros out. subst out. rewrite group_outputs.
  cbn [written volume_map magic_formula_map].
  split; [|split].
  - rewrite map_map.
    apply (order_through_map
             (R := fun a b : bucket => pair_ltb (fst a) (fst b) = true)).
    + intros [[ta sa] ra] [[tb sb] rb] _ _ L. exact L.
    + apply kind_keeps_order, sorted_buckets_strict.
  - apply wide_keys_ascending with (s0 := py "volume").
    apply is_volume_source.
  - apply wide_keys_ascending with (s0 := py "magic_formula").
    apply is_magic_formula_source.
Qed.

Lemma wide_map_nonempty (kind : bucket -> bool) (s0 : pystr)
  (items : list pydict) :
  (forall b, kind b = true <-> snd (fst b) = s0) ->
  map wide_of (filter kind (sorted_buckets items)) <> []
  <-> exists r, In r items /\ norm_source r = s0.
Proof.
  intros Hk. split.
  - intros N.
    destruct (filter kind (sorted_buckets items)) as [|b q] eqn:E;
      [exfalso; apply N; reflexivity|].
    assert (Hb : In b (filter kind (sorted_buckets items)))
      by (rewrite E; left; reflexivity).
    apply filter_In in Hb. destruct Hb as [Hb Kb].
    pose proof Hb as Hb'. apply sorted_In in Hb'.
    destruct (bucket_records _ _ Hb') as [Er Nr].
    destruct (snd b) as [|r rs] eqn:Eb; [congruence|].
    assert (Hr : In r (with_key (fst b) items))
      by (rewrite <- Er; left; reflexivity).
    apply filter_In in Hr. destruct Hr as [Hr Kr].
    apply pair_eqb_eq in Kr. exists r. split; auto.
    apply Hk in Kb. rewrite <- Kb, <- Kr. reflexivity.
  - intros [r [Hr Es]].
    destruct (record_in_its_bucket _ _ Hr) as [recs [Hb _]].
    assert (G : In (item_key r, recs) (filter kind (sorted_buckets items))).
    { apply filter_In. split; auto. apply Hk. exact Es. }
    destruct (filter kind (sorted_buckets items)); [destruct G|].
    discriminate.
Qed.

(** X12: a wide map is not empty, and so its file is written, exactly
    when some record has that normalized source. *)
Theorem wide_file_written (ext generated_at : pystr) (items : list pydict) :
  let out := group ext generated_at items in
  (wide_file ext generated_at (py "volume") (volume_map out) <> []
   <-> exists r, In r items /\ norm_source r = py "volume")
  /\ (wide_file ext generated_at (py "magic_formula") (magic_formula_map out)
      <> []
      <-> exists r, In r items /\ norm_source r = py "magic_formula").
Proof.
  intros out. subst out. rewrite group_outputs.
  cbn [written volume_map magic_formula_map].
  assert (W : forall s m, wide_file ext generated_at s m <> [] <-> m <> []).
  { intros s m. destruct m; simpl; split; intros H; congruence. }
  rewrite !W. split.
  - apply wide_map_nonempty. intros b. unfold is_volume.
    apply eqb_eq.
  - apply wide_map_nonempty. intros b. unfold is_magic_formula, is_volume.
    rewrite andb_true_iff, negb_true_iff, eqb_eq. split; [tauto|].
    intros E. split; auto. rewrite E. reflexivity.
Qed.

End OutputOrderFacts.

(** ** From the files main writes to the rows build_sharks reads *)

Lemma lstrip_idem (s : pystr) : lstrip (lstrip s) = lstrip s.
Proof.
  destruct (lstrip s) as [|c r] eqn:E; auto.
  simpl. rewrite (lstrip_head _ E). reflexivity.
Qed.

Lemma strip_idem (s : pystr) : strip (strip s) = strip s.
Proof.
  unfold strip at 2. unfold rstrip.
  set (v := lstrip (rev (lstrip s))).
  assert (Hv : lstrip v = v) by apply lstrip_idem.
  assert (Hr : lstrip (rev v) = rev v).
  { destruct (rev v) as [|c r] eqn:E; auto.
    assert (Hs : strip s = c :: r) by (unfold strip, rstrip; exact E).
    simpl. rewrite (strip_head _ Hs). reflexivity. }
  unfold strip, rstrip. rewrite Hr, rev_involutive, Hv. reflexivity.
Qed.

Lemma ascii_upper_upper (c : codepoint) :
  ascii_upper (ascii_upper c) = ascii_upper c.
Proof.
  unfold ascii_upper at 2 3.
  destruct (is_lower_az c) eqn:E1; unfold ascii_upper.
  - assert (E2 : is_lower_az (c - 32)%N = false) by char_fact.
    rewrite E2. reflexivity.
  - rewrite E1. reflexivity.
Qed.

Lemma starts_with_app (pre x : pystr) : starts_with pre (pre ++ x) = true.
Proof.
  induction pre as [|a pre IH]; simpl; auto.
  rewrite N.eqb_refl, IH. reflexivity.
Qed.

Section ReadBackFacts.
Context {RT : PyRuntime}.

Lemma upper_strip_stable (x : pystr) :
  forallb is_ascii x = true ->
  upper (strip (upper (strip x))) = upper (strip x).
Proof.
  intros H. pose proof (strip_ascii _ H) as Hs.
  rewrite (upper_ascii _ Hs), (strip_map _ _ ascii_upper_space), strip_idem.
  rewrite upper_ascii
    by (apply forallb_map_ascii; auto using ascii_upper_ascii).
  rewrite map_map. apply map_ext, ascii_upper_upper.
Qed.

Lemma norm_ticker_stable (r : pydict) :
  forallb is_ascii (str_get_or r "ticker" "") = true ->
  upper (strip (norm_ticker r)) = norm_ticker r /\ norm_ticker r <> [].
Proof.
  intros H. unfold norm_ticker.
  destruct (is_empty (upper (strip (str_get_or r "ticker" "")))) eqn:E.
  - split; [reflexivity | discriminate].
  - split; [apply upper_strip_stable, H|].
    intros C. rewrite C in E. discriminate.
Qed.

(** X13: the file that the loop writes for the shareholders of a ticker is
    one that [build_sharks] takes: its name matches "*.acionistas.json", it
    is not passed over, and (the ticker field of the records being ASCII)
    it is read back under the very ticker of its bucket, with one row for
    each record that has a usable shareholder name. *)
Theorem shareholders_artifact_read_back (generated_at : pystr) (r : pydict)
  (recs : list pydict) :
  forallb is_ascii (str_get_or r "ticker" "") = true ->
  let t := norm_ticker r in
  let p := {| name := file_name (py "json") t (py "acionistas");
              loaded :=
                Some (ticker_payload generated_at t (py "acionistas") recs) |}
  in
  glob_match (name p) = true
  /\ passed_over p = false
  /\ file_rows p = map (pair t) (item_rows (map PDict recs)).
Proof.
  intros H t. destruct (norm_ticker_stable _ H) as [St Nt].
  fold t in St, Nt. clearbody t. intros p.
  assert (T : forall n,
             artifact_ticker n
               [ (py "generated_at", PStr generated_at);
                 (py "ticker", PStr t);
                 (py "source", PStr (py "acionistas"));
                 (py "items", PList (map PDict recs)) ] = t).
  { intros n. unfold artifact_ticker, str_get_or.
    change (dict_get PyStr.eqb _ (py "ticker")) with (Some (PStr t)).
    cbn [truthy py_str]. destruct t as [|c q]; [congruence|].
    cbn [is_empty negb]. rewrite St. reflexivity. }
  assert (E : is_empty t = false) by (destruct t; [congruence | reflexivity]).
  split; [|split].
  - unfold glob_match, p, file_name. cbn [name].
    change (py "." ++ py "acionistas" ++ py "." ++ py "json")
      with acionistas_suffix.
    rewrite rev_app_distr. apply starts_with_app.
  - unfold passed_over, p, ticker_payload. cbn [loaded name].
    change (dict_get PyStr.eqb _ (py "items"))
      with (Some (PList (map PDict recs))).
    cbv iota. rewrite T. exact E.
  - unfold file_rows, p, ticker_payload. cbn [loaded name].
    change (dict_get PyStr.eqb _ (py "items"))
      with (Some (PList (map PDict recs))).
    cbv iota. rewrite T, E. reflexivity.
Qed.

End ReadBackFacts.

(** ** The items of the magic formula *)

Lemma dict_update_get (extra d : pydict) (k : pystr) :
  NoDup (dict_keys extra) ->
  dict_get PyStr.eqb (dict_update d extra) k
  = match dict_get PyStr.eqb extra k with
    | Some v => Some v
    | None => dict_get PyStr.eqb d k
    end.
Proof.
  unfold dict_update. revert d.
  induction extra as [|[k0 v0] r IH]; intros d N; simpl; auto.
  inversion N as [|? ? Nk Nr]; subst.
  rewrite (IH _ Nr), dict_get_set by apply eqb_eq.
  destruct (PyStr.eqb k k0) eqn:E; auto.
  apply eqb_eq in E. subst k0.
  apply (dict_get_None PyStr.eqb eqb_eq) in Nk. rewrite Nk. reflexivity.
Qed.

Section MagicFacts.
Context {RT : PyRuntime}.

(** X14: every item made of the magic-formula response comes from a row
    that is a dictionary with a usable "simbolo"; it has the fields of its
    row, and the fixed fields site, source and ticker only where the row
    has no field of that name: a field of the row wins over a fixed one. *)
Theorem magic_items_fields (data : pyval) (item : pydict) :
  (forall rows row, data = PList rows -> In (PDict row) rows ->
     NoDup (dict_keys row)) ->
  In item (magic_formula_items data) ->
  exists rows row,
    data = PList rows /\ In (PDict row) rows
    /\ upper (strip (str_get_or row "simbolo" "")) <> []
    /\ forall k,
         dict_get PyStr.eqb item k
         = match dict_get PyStr.eqb row k with
           | Some v => Some v
           | None =>
               dict_get PyStr.eqb
                 (magic_fixed (upper (strip (str_get_or row "simbolo" "")))) k
           end.
Proof.
  intros W H. unfold magic_formula_items in H.
  destruct data as [| | | | |rows|]; try contradiction.
  apply in_flat_map in H. destruct H as [row [Hr Hi]].
  destruct row as [| | | | | |d]; try contradiction.
  destruct (is_empty (upper (strip (str_get_or d "simbolo" "")))) eqn:E;
    [contradiction|].
  destruct Hi as [<-|[]].
  exists rows, d. repeat split; auto.
  - intros C. rewrite C in E. discriminate.
  - intros k. apply dict_update_get. apply (W rows); auto.
Qed.

(** X15: a row with no "ticker" and no "source" field of its own, whose
    "simbolo" is ASCII, gives an item that the grouping loop keys under the
    normalized symbol and the source "magic_formula". *)
Theorem magic_item_key (row : pydict) :
  NoDup (dict_keys row) ->
  dict_get PyStr.eqb row (py "ticker") = None ->
  dict_get PyStr.eqb row (py "source") = None ->
  forallb is_ascii (str_get_or row "simbolo" "") = true ->
  let ticker := upper (strip (str_get_or row "simbolo" "")) in
  ticker <> [] ->
  item_key (magic_item row ticker) = (ticker, py "magic_formula").
Proof.
  intros N Ht Hs Ha ticker Nt.
  pose proof (upper_strip_stable _ Ha) as St. fold ticker in St.
  clearbody ticker.
  unfold item_key, norm_ticker, norm_source, str_get_or, magic_item.
  rewrite !(@dict_update_get row _ _ N), Ht, Hs.
  change (dict_get PyStr.eqb (magic_fixed ticker) (py "ticker"))
    with (Some (PStr ticker)).
  change (dict_get PyStr.eqb (magic_fixed ticker) (py "source"))
    with (Some (PStr (py "magic_formula"))).
  cbn [truthy py_str].
  destruct ticker as [|c q]; [congruence|].
  cbn [is_empty negb]. rewrite St. reflexivity.
Qed.

End MagicFacts.

(** ** The Markdown of a wide map *)

Lemma sorted_of_ascending (l : list pystr) :
  StronglySorted (fun a b => PyStr.ltb a b = true) l ->
  sorted PyStr.ltb l = l.
Proof.
  induction 1 as [|x r Sr IH F]; simpl; auto.
  rewrite IH. destruct r as [|y q]; auto. simpl.
  inversion F as [|? ? Hy _]; subst.
  rewrite (ltb_asym _ _ Hy). reflexivity.
Qed.

Section WideMarkdownFacts.
Context {RT : PyRuntime}.

Lemma sections_of_map (m : list (pystr * pyval)) :
  NoDup (dict_keys m) ->
  flat_map
    (fun k => md_section k (opt_default PNone (dict_get PyStr.eqb m k)))
    (dict_keys m)
  = flat_map (fun kv => md_section (fst kv) (snd kv)) m.
Proof.
  intros N. unfold dict_keys. rewrite flat_map_concat_map, map_map.
  rewrite flat_map_concat_map. f_equal. apply map_ext_in.
  intros [k v] Hkv. simpl.
  rewrite (In_dict_get PyStr.eqb eqb_eq _ _ _ N Hkv). reflexivity.
Qed.

Lemma wide_markdown (kind : bucket -> bool) (s0 : pystr)
  (items : list pydict) (head : pydict) :
  (forall b, kind b = true -> snd (fst b) = s0) ->
  dict_get PyStr.eqb head (py "items") = None ->
  let m := map wide_of (filter kind (sorted_buckets items)) in
  _to_markdown (head ++ [(py "items", PDict m)])
  = md_heading (head ++ [(py "items", PDict m)])
    ++ flat_map (fun kv => md_section (fst kv) (snd kv)) m
  /\ Forall (fun kv => exists d, snd kv = PDict d) m.
Proof.
  intros Hk Hh m. split.
  - unfold _to_markdown.
    assert (G : dict_get PyStr.eqb (head ++ [(py "items", PDict m)])
                  (py "items") = Some (PDict m)).
    { clear -Hh. induction head as [|[k v] r IH]; [reflexivity|].
      cbn [app dict_get] in *.
      destruct (PyStr.eqb (py "items") k); [discriminate Hh | auto]. }
    rewrite G. f_equal.
    rewrite sorted_of_ascending by (apply wide_keys_ascending with (s0 := s0);
                                    exact Hk).
    apply sections_of_map.
    apply (strict_sorted_NoDup (R := fun a b => PyStr.ltb a b = true)).
    + intros x Hx. rewrite ltb_irrefl in Hx. discriminate.
    + apply wide_keys_ascending with (s0 := s0). exact Hk.
  - apply Forall_forall. intros kv Hkv. apply in_map_iff in Hkv.
    destruct Hkv as [[k recs] [<- _]]. unfold wide_of, wide_payload. simpl.
    destruct recs as [|r [|r' q]]; eauto.
Qed.

(** X16: in the Markdown of the volume map and of the magic-formula map
    that the loop builds, the sections are those of the map, one per
    ticker and in the order of the map (ascending); every value of a wide
    map is a dictionary, so each section is a field/value table and the
    branch for lists is never taken. *)
Theorem wide_maps_markdown (ext generated_at : pystr)
  (items : list pydict) :
  let out := group ext generated_at items in
  let payload (source : string) (m : list (pystr * pyval)) : pydict :=
    [ (py "generated_at", PStr generated_at);
      (py "source", PStr (py source));
      (py "items", PDict m) ] in
  (_to_markdown (payload "volume"%string (volume_map out))
   = md_heading (payload "volume"%string (volume_map out))
     ++ flat_map (fun kv => md_section (fst kv) (snd kv)) (volume_map out))
  /\ (_to_markdown (payload "magic_formula"%string (magic_formula_map out))
      = md_heading (payload "magic_formula"%string (magic_formula_map out))
        ++ flat_map (fun kv => md_section (fst kv) (snd kv))
             (magic_formula_map out))
  /\ Forall (fun kv => exists d, snd kv = PDict d)
       (volume_map out ++ magic_formula_map out).
Proof.
  intros out payload. subst out payload. rewrite group_outputs.
  cbn [written volume_map magic_formula_map].
  destruct (@wide_markdown is_volume (py "volume") items
              [ (py "generated_at", PStr generated_at);
                (py "source", PStr (py "volume")) ]
              is_volume_source eq_refl) as [V1 V2].
  destruct (@wide_markdown is_magic_formula (py "magic_formula") items
              [ (py "generated_at", PStr generated_at);
                (py "source", PStr (py "magic_formula")) ]
              is_magic_formula_source eq_refl) as [M1 M2].
  split; [exact V1|]. split; [exact M1|].
  apply Forall_app. split; assumption.
Qed.

(** X17: a ticker with several records in a wide map is rendered as a
    table of two columns with the single row "items", whose cell is the
    escaped text of the whole list of records: the records are not laid
    out as rows. *)
Theorem wide_section_of_several (t : pystr) (r1 r2 : pydict)
  (more : list pydict) :
  let recs := r1 :: r2 :: more in
  md_section t (wide_payload recs)
  = py "## " ++ t ++ [LF; LF]
    ++ table_line [py "campo"; py "valor"]
    ++ table_line [py "---"; py "---"]
    ++ table_line [py "items"; _md_escape (PList (map PDict recs))]
    ++ [LF].
Proof.
  intros recs. unfold md_section, wide_payload, recs.
  do 3 f_equal. unfold _md_kv_table, _md_table.
  cbn [dict_keys map fst].
  change (table_columns _) with [py "campo"; py "valor"].
  cbv iota. cbn [List.length repeat flat_map List.concat app map].
  change (dict_get PyStr.eqb _ (py "campo")) with (Some (PStr (py "items"))).
  change (dict_get PyStr.eqb
            [(py "campo", PStr (py "items"));
             (py "valor",
              opt_default PNone
                (dict_get PyStr.eqb
                   [(py "items", PList (map PDict (r1 :: r2 :: more)))]
                   (py "items")))] (py "valor"))
    with (Some (PList (map PDict (r1 :: r2 :: more)))).
  cbn [opt_default].
  change (_md_escape (PStr (py "campo"))) with (py "campo").
  change (_md_escape (PStr (py "valor"))) with (py "valor").
  change (_md_escape (PStr (py "items"))) with (py "items").
  rewrite <- !app_assoc. reflexivity.
Qed.

End WideMarkdownFacts.

(** ** Files that do not count *)

Lemma usable_files (kept passed : file -> bool) (l : list file) :
  filter (fun p => negb (passed p)) (filter kept l)
  = filter (fun p => negb (passed p))
      (filter kept (filter (fun p => kept p && negb (passed p)) l)).
Proof.
  induction l as [|p r IH]; simpl; auto.
  destruct (kept p) eqn:Ek; simpl; auto.
  destruct (passed p) eqn:Ep; simpl; auto.
  rewrite Ek. simpl. rewrite Ep. simpl. rewrite IH. reflexivity.
Qed.

Section UsableFacts.
Context {RT : PyRuntime}.

(** X18: only the usable shareholder artifacts count: the result is that
    of the directory reduced to the files named "*.acionistas.json" that
    are not passed over; files with another name, files that cannot be
    read or parsed, objects with no usable ticker or whose items are not a
    list change nothing, however many they are. *)
Theorem build_sharks_usable_files (out_dir : list file) :
  build_sharks out_dir
  = build_sharks
      (filter (fun p => glob_match (name p) && negb (passed_over p)) out_dir).
Proof.
  unfold build_sharks.
  rewrite (scan_files_drop (shareholder_files out_dir)).
  rewrite (scan_files_drop (shareholder_files (filter _ out_dir))).
  unfold shareholder_files.
  rewrite !(filter_sorted _ name_ltb_asym name_leb_trans).
  rewrite (usable_files (fun p => glob_match (name p)) passed_over out_dir).
  reflexivity.
Qed.

End UsableFacts.

(** ** The further properties at the fixtures *)

Import MoreFixtures.

Lemma sharks_are_not_empty_witness :
  Forall (fun s =>
            (1 <= quantity s)%Z
            /\ quantity s = Z.of_nat (List.length (items s))
            /\ NoDup (items s)
            /\ Forall (fun t => t <> []) (items s)
            /\ shark_name s <> []
            /\ @_normalize_shark_name ascii_runtime (shark_name s) <> [])
    [acme_shark; beta_shark].
Proof.
  apply (@sharks_are_not_empty ascii_runtime acme_files).
  vm_compute; reflexivity.
Defined.

Lemma sharks_strictly_ordered_witness :
  NoDup (map shark_name [acme_shark; beta_shark])
  /\ StronglySorted shark_strictly_before [acme_shark; beta_shark].
Proof.
  apply (@sharks_strictly_ordered ascii_runtime acme_files).
  vm_compute; reflexivity.
Defined.

Lemma build_sharks_row_order_witness :
  @build_sharks ascii_runtime acme_files_swapped
  = Ok [acme_shark; beta_shark]
  /\ [acme_shark; beta_shark]
     = match @build_sharks ascii_runtime acme_files_swapped with
       | Ok sharks => sharks
       | Raise _ => []
       end.
Proof.
  split; [vm_compute; reflexivity|].
  apply (@build_sharks_row_order ascii_runtime acme_files acme_files_swapped).
  - vm_compute. apply perm_swap.
  - vm_compute; reflexivity.
  - vm_compute; reflexivity.
Defined.

Lemma build_sharks_listing_order_witness :
  @build_sharks ascii_runtime acme_files
  = @build_sharks ascii_runtime (rev acme_files).
Proof.
  apply (@build_sharks_listing_order ascii_runtime).
  - vm_compute.
    repeat (constructor; [simpl; intuition discriminate|]). constructor.
  - apply Permutation_rev.
Defined.

Lemma normalize_ignores_ascii_case_witness :
  @_normalize_shark_name ascii_runtime
    (@upper ascii_runtime (py "ACME Corp"))
  = @_normalize_shark_name ascii_runtime (py "ACME Corp")
  /\ @_normalize_shark_name ascii_runtime
       (@lower ascii_runtime (py "ACME Corp"))
     = @_normalize_shark_name ascii_runtime (py "ACME Corp").
Proof.
  apply (@normalize_ignores_ascii_case ascii_runtime (py "ACME Corp")).
  reflexivity.
Defined.

Lemma shareholders_artifact_read_back_witness :
  let t := @norm_ticker ascii_runtime gamma_record in
  let p := {| name := @file_name ascii_runtime (py "json") t (py "acionistas");
              loaded :=
                Some (ticker_payload stamp t (py "acionistas") [gamma_record])
           |} in
  glob_match (name p) = true
  /\ @passed_over ascii_runtime p = false
  /\ @file_rows ascii_runtime p
     = map (pair t) (@item_rows ascii_runtime (map PDict [gamma_record])).
Proof.
  apply (@shareholders_artifact_read_back ascii_runtime stamp gamma_record
           [gamma_record]).
  reflexivity.
Defined.

Lemma magic_items_fields_witness :
  exists rows row,
    PList [PDict magic_row_sourced; PInt 3] = PList rows
    /\ In (PDict row) rows
    /\ @upper ascii_runtime (strip (@str_get_or ascii_runtime row "simbolo" "")) <> []
    /\ forall k,
         dict_get PyStr.eqb
           [ (py "site", PStr (py "bestchoice")); (py "source", PStr (py "x"));
             (py "ticker", PStr (py "VALE3"));
             (py "simbolo", PStr (py "vale3")) ] k
         = match dict_get PyStr.eqb row k with
           | Some v => Some v
           | None =>
               dict_get PyStr.eqb
                 (magic_fixed
                    (@upper ascii_runtime
                       (strip (@str_get_or ascii_runtime row "simbolo" "")))) k
           end.
Proof.
  apply (@magic_items_fields ascii_runtime
           (PList [PDict magic_row_sourced; PInt 3])).
  - intros rows row E H. inversion E; subst; clear E.
    destruct H as [H|[H|[]]]; [|discriminate H].
    inversion H; subst; clear H. vm_compute.
    repeat (constructor; [simpl; intuition discriminate|]). constructor.
  - vm_compute. left; reflexivity.
Defined.

Lemma magic_item_key_witness :
  @item_key ascii_runtime (@magic_item magic_row (py "PETR4"))
  = (py "PETR4", py "magic_formula").
Proof.
  apply (@magic_item_key ascii_runtime magic_row).
  - vm_compute.
    repeat (constructor; [simpl; intuition discriminate|]). constructor.
  - reflexivity.
  - reflexivity.
  - reflexivity.
  - vm_compute; discriminate.
Defined.

Lemma build_sharks_count_witness :
  exists keys,
    NoDup keys
    /\ (forall k,
          In k keys
          <-> exists t, appears_in (@seen_rows ascii_runtime acme_files) k t)
    /\ List.length [acme_shark; beta_shark] = List.length keys.
Proof.
  apply (@build_sharks_count ascii_runtime acme_files).
  vm_compute; reflexivity.
Defined.

Lemma tokens_of_nonempty_witness :
  @tokens_of ascii_runtime (py "ACME Corp") <> [].
Proof.
  apply (@tokens_of_nonempty ascii_runtime (py "ACME Corp")).
  reflexivity.
Defined.
